(** * eopsin / opshin: built-in catalogue, diagnostics, datum decoding and
      the constant-folding pass

    A shallow embedding of
      - [eopsin/util.py]: the IR recipes of the Python built-ins, the
        polymorphic [len], [CompilerError] and the two compiling visitors,
        [data_from_json];
      - [opshin/optimize/optimize_const_folding.py]: the table of safe globals,
        the write counter [DefinedTimesVisitor] and the transformer
        [OptimizeConstantFolding];
      - the matching of call arguments against parameters, after the
        specification, for the calls of [opshin/tests/test_keywords.py].

    Python values are modelled by inductive types, dictionaries by [gmap],
    sets by [gset], raised exceptions by the [Raise] branch of [result]. *)

From Stdlib Require Import ZArith Lia.
From stdpp Require Import base option list strings pretty gmap fin_maps.

Set Warnings "-register-all".

Open Scope Z_scope.
Open Scope string_scope.
Open Scope list_scope.

(** ** Exceptions and results *)

(** The exception classes that the modelled code raises itself or that the
    host operations it calls can raise. *)
Inductive exc_class :=
| AssertionError
| AttributeError
| IndexError
| KeyError
| NameError
| NotImplementedError
| SyntaxError
| TypeError
| ValueError
| ZeroDivisionError.

(** An instance of [Exception], which is what [except Exception] catches and
    what [CompilerError] takes as [orig_err].  [CompilerError] is the
    structured diagnostic of [util.py]; every other exception is a
    [PyError]. *)
Inductive exn (node : Type) :=
| PyError (cls : exc_class) (msg : string)
| CompilerError (orig_err : exn node) (n : node) (compilation_step : string).
Arguments PyError {node} cls msg.
Arguments CompilerError {node} orig_err n compilation_step.

(** The outcome of a Python call: a returned value or a raised exception. *)
Inductive result (E A : Type) :=
| Ok (a : A)
| Raise (e : E).
Arguments Ok {E A} a.
Arguments Raise {E A} e.

Definition bind_result {E A B} (r : result E A) (k : A -> result E B)
  : result E B :=
  match r with
  | Ok a => k a
  | Raise e => Raise e
  end.

(** [list(map(f, xs))]: elements are processed left to right and the first
    exception aborts the whole call. *)
Fixpoint map_result {E A B} (f : A -> result E B) (xs : list A)
  : result E (list B) :=
  match xs with
  | [] => Ok []
  | x :: xs' =>
      match f x with
      | Raise e => Raise e
      | Ok y =>
          match map_result f xs' with
          | Raise e => Raise e
          | Ok ys => Ok (y :: ys)
          end
      end
  end.

(** ** Diagnostics: [CompilerError] and the compiling visitors *)

Module Diagnostics.

Section Visitors.
Context {node A : Type}.

(** [isinstance(e, CompilerError)] *)
Definition isinstance_CompilerError (e : exn node) : bool :=
  match e with
  | CompilerError _ _ _ => true
  | PyError _ _ => false
  end.

(** The [try ... except Exception as e] block shared by both visitors:
    [r] is the outcome of [super().visit(node)]. *)
Definition wrap (step : string) (n : node) (r : result (exn node) A)
  : result (exn node) A :=
  match r with
  | Ok v => Ok v
  | Raise e =>
      if isinstance_CompilerError e then Raise e
      else Raise (CompilerError e n step)
  end.

(** [CompilingNodeTransformer.visit]; [step] is the class attribute, which
    subclasses override, and [super_visit] the inherited dispatcher. *)
Definition CompilingNodeTransformer_visit
    (step : string) (super_visit : node -> result (exn node) A) (n : node)
  : result (exn node) A :=
  wrap step n (super_visit n).

(** [CompilingNodeVisitor.visit] *)
Definition CompilingNodeVisitor_visit
    (step : string) (super_visit : node -> result (exn node) A) (n : node)
  : result (exn node) A :=
  wrap step n (super_visit n).
End Visitors.

Definition CompilingNodeTransformer_step : string := "Node transformation".
Definition CompilingNodeVisitor_step : string := "Node visiting".

(** A recursive traversal in the style of [ast.NodeVisitor]: the method of a
    node visits the children through [self.visit], i.e. through the
    wrapper, and then runs its own body [method] on their results. *)
Inductive tree (L : Type) := Node (label : L) (children : list (tree L)).
Arguments Node {L} label children.

Section Traversal.
Context {L A : Type}.
Variable step : string.
Variable method : L -> list A -> result (exn (tree L)) A.

Fixpoint visit_tree (t : tree L) : result (exn (tree L)) A :=
  match t with
  | Node l cs =>
      wrap step t
        (bind_result
           ((fix visit_children (ts : list (tree L)) :=
               match ts with
               | [] => Ok []
               | c :: ts' =>
                   match visit_tree c with
                   | Raise e => Raise e
                   | Ok y =>
                       match visit_children ts' with
                       | Raise e => Raise e
                       | Ok ys => Ok (y :: ys)
                       end
                   end
               end) cs)
           (method l))
  end.

(** The node is [t] itself or one of its descendants. *)
Fixpoint occurs_in (n t : tree L) {struct t} : Prop :=
  n = t \/
  match t with
  | Node _ cs =>
      (fix any_child (ts : list (tree L)) : Prop :=
         match ts with
         | [] => False
         | c :: ts' => occurs_in n c \/ any_child ts'
         end) cs
  end.
End Traversal.

(** *** Properties *)

Lemma wrap_Ok {node A} step (n : node) (v : A) :
  wrap step n (Ok v) = Ok v.
Proof. reflexivity. Qed.

Lemma wrap_is_CompilerError {node A} step (n : node) (r : result (exn node) A) e :
  wrap step n r = Raise e -> isinstance_CompilerError e = true.
Proof.
  destruct r as [v|e0]; simpl; [discriminate|].
  destruct (isinstance_CompilerError e0) eqn:He0; intros [= <-]; auto.
Qed.

(** Induction over a [tree] with the hypothesis available for every child. *)
Lemma tree_rect_children {L} (P : tree L -> Prop) :
  (forall l cs, Forall P cs -> P (Node l cs)) -> forall t, P t.
Proof.
  intros step. fix IH 1. intros [l cs]. apply step.
  induction cs as [|c cs IHcs]; constructor; [apply IH | exact IHcs].
Qed.

(** X12. Through any depth of recursive visits the exception that leaves
    the traversal is wrapped once: when the method bodies raise plain
    exceptions only, it is a [CompilerError] around a plain exception,
    and it names a node of the visited tree. *)
Lemma visit_tree_single_wrap {L A} step
    (method : L -> list A -> result (exn (tree L)) A) :
  (forall l vs e, method l vs = Raise e -> isinstance_CompilerError e = false) ->
  forall t e,
    visit_tree step method t = Raise e ->
    exists e0 n,
      e = CompilerError e0 n step /\
      isinstance_CompilerError e0 = false /\
      occurs_in n t.
Proof.
  intros Hplain t. induction t as [l cs IH] using tree_rect_children.
  intros e. simpl.
  match goal with |- wrap _ _ (bind_result ?c _) = _ -> _ => set (kids := c) end.
  assert (Hkids : forall e', kids = Raise e' ->
            exists e0 n, e' = CompilerError e0 n step /\
              isinstance_CompilerError e0 = false /\
              (fix any_child (ts : list (tree L)) : Prop :=
                 match ts with
                 | [] => False
                 | c :: ts' => occurs_in n c \/ any_child ts'
                 end) cs).
  { subst kids. clear e. induction IH as [|c cs Hc _ IHcs]; intros e'.
    - discriminate.
    - destruct (visit_tree step method c) as [y|ec] eqn:Ec.
      + match goal with
        | |- match ?k with _ => _ end = _ -> _ => destruct k as [ys|es] eqn:Es
        end; [discriminate|].
        intros [= <-]. destruct (IHcs es eq_refl) as (e0 & n & ? & ? & ?).
        exists e0, n. auto.
      + intros [= <-]. destruct (Hc ec eq_refl) as (e0 & n & ? & ? & ?).
        exists e0, n. auto. }
  destruct kids as [vs|ek] eqn:Ek; simpl.
  - destruct (method l vs) as [v|em] eqn:Em; simpl; [discriminate|].
    rewrite (Hplain _ _ _ Em). intros [= <-].
    exists em, (Node l cs). split; [reflexivity|]. split; [eauto|]. now left.
  - destruct (Hkids ek eq_refl) as (e0 & n & -> & He0 & Hn). simpl.
    intros [= <-]. exists e0, n. split; [reflexivity|]. split; [assumption|].
    now right.
Qed.

(** C6. Whenever the inherited visit of a node raises an exception [e]:
    if [e] is not a [CompilerError], the visitor raises one [CompilerError]
    whose fields are [e], the visited node and the step name of the pass;
    if [e] is a [CompilerError] (raised by a nested visit), the visitor
    re-raises [e] itself.  This holds for the transformer and the visitor. *)
Theorem visit_wraps_exactly_once {node A : Type}
    (step : string) (super_visit : node -> result (exn node) A)
    (n : node) (e : exn node) :
  super_visit n = Raise e ->
  (isinstance_CompilerError e = false ->
     CompilingNodeTransformer_visit step super_visit n
       = Raise (CompilerError e n step) /\
     CompilingNodeVisitor_visit step super_visit n
       = Raise (CompilerError e n step)) /\
  (isinstance_CompilerError e = true ->
     CompilingNodeTransformer_visit step super_visit n = Raise e /\
     CompilingNodeVisitor_visit step super_visit n = Raise e).
Proof.
  intros Hraise.
  unfold CompilingNodeTransformer_visit, CompilingNodeVisitor_visit, wrap.
  rewrite Hraise.
  split; intros ->; split; reflexivity.
Qed.

Lemma visit_wraps_exactly_once_witness :
  let boom : nat -> result (exn nat) unit :=
    fun _ => Raise (PyError KeyError "x") in
  boom 7%nat = Raise (PyError KeyError "x") /\
  CompilingNodeTransformer_visit CompilingNodeTransformer_step boom 7%nat
    = Raise (CompilerError (PyError KeyError "x") 7%nat "Node transformation").
Proof.
  intros boom. split; [reflexivity|].
  apply (visit_wraps_exactly_once CompilingNodeTransformer_step boom 7%nat
           (PyError KeyError "x") eq_refl); reflexivity.
Defined.

(** *** Further properties of the visitors *)

(** X1. An enclosing visit hands on what the enclosed visit returned or
    raised, whatever the two passes and the two nodes are: the diagnostic
    that reaches the caller names the innermost node and its step. *)
Theorem enclosing_visit_hands_on {node A : Type}
    (step1 step2 : string) (n1 n2 : node)
    (super_visit : node -> result (exn node) A) :
  CompilingNodeTransformer_visit step2
    (fun _ => CompilingNodeVisitor_visit step1 super_visit n1) n2
  = CompilingNodeVisitor_visit step1 super_visit n1.
Proof.
  unfold CompilingNodeTransformer_visit, CompilingNodeVisitor_visit, wrap.
  destruct (super_visit n1) as [v|e]; [reflexivity|].
  destruct (isinstance_CompilerError e) eqn:He; simpl; [now rewrite He|reflexivity].
Qed.

(** A traversal whose method fails on the label 0. *)
Definition fails_on_zero (l : nat) (vs : list nat) : result (exn (tree nat)) nat :=
  match l with
  | O => Raise (PyError ValueError "zero")
  | S _ => Ok (length vs)
  end.

Lemma visit_tree_single_wrap_witness :
  (forall l vs e, fails_on_zero l vs = Raise e -> isinstance_CompilerError e = false) /\
  exists e0 n,
    visit_tree "Node visiting" fails_on_zero (Node 1%nat [Node 2%nat []; Node 0%nat []])
      = Raise (CompilerError e0 n "Node visiting") /\
    isinstance_CompilerError e0 = false.
Proof.
  assert (Hplain : forall l vs e,
            fails_on_zero l vs = Raise e -> isinstance_CompilerError e = false).
  { intros [|l] vs e; simpl; [intros [= <-]; reflexivity|discriminate]. }
  split; [exact Hplain|].
  destruct (visit_tree_single_wrap "Node visiting" fails_on_zero Hplain
              (Node 1%nat [Node 2%nat []; Node 0%nat []])
              (CompilerError (PyError ValueError "zero") (Node 0%nat []) "Node visiting")
              eq_refl)
    as (e0 & n & Heq & He0 & _).
  exists e0, n. split; [now rewrite <- Heq|exact He0].
Defined.

End Diagnostics.

(** ** Datum decoding: [data_from_json] *)

Notation "x <- c ;; k" := (bind_result c (fun x => k))
  (at level 100, c at next level, right associativity).

(** Python's [needle in hay] for two [str] values. *)
Fixpoint str_contains (needle hay : string) : bool :=
  String.prefix needle hay ||
  match hay with
  | EmptyString => false
  | String _ hay' => str_contains needle hay'
  end.

(** A [dict] with [str] keys, in insertion order. *)
Fixpoint dict_get {V} (k : string) (d : list (string * V)) : option V :=
  match d with
  | [] => None
  | (k', v) :: d' => if String.eqb k k' then Some v else dict_get k d'
  end.

Definition dict_has {V} (k : string) (d : list (string * V)) : bool :=
  match dict_get k d with
  | Some _ => true
  | None => false
  end.

Module Datum.

(** Exceptions outside a compiler pass carry no AST node. *)
Definition error := exn Empty_set.

(** What [json.load] returns, and hence what [j] and its items can be;
    numbers are the integers, a number with a fraction is not covered. *)
Inductive json :=
| JNull
| JBool (b : bool)
| JInt (z : Z)
| JStr (s : string)
| JArr (xs : list json)
| JObj (kvs : list (string * json)).

(** [uplc.PlutusData].  [data_from_json] stores the items of a map and the
    arguments of a constructor as it finds them, without decoding them. *)
Inductive PlutusData :=
| PlutusByteString (value : list Byte.byte)
| PlutusInteger (value : Z)
| PlutusList (value : list PlutusData)
| PlutusMap (value : list (json * json))
| PlutusConstr (constructor : json) (fields : json).

(** [k in j] *)
Definition contains (k : string) (j : json) : result error bool :=
  match j with
  | JObj kvs => Ok (dict_has k kvs)
  | JStr s => Ok (str_contains k s)
  | JArr xs =>
      Ok (existsb (fun x => match x with
                            | JStr s => String.eqb s k
                            | _ => false
                            end) xs)
  | _ => Raise (PyError TypeError "argument is not iterable")
  end.

(** [j[k]] for a [str] key [k] *)
Definition getitem (j : json) (k : string) : result error json :=
  match j with
  | JObj kvs =>
      match dict_get k kvs with
      | Some v => Ok v
      | None => Raise (PyError KeyError k)
      end
  | JStr _ | JArr _ => Raise (PyError TypeError "indices must be integers")
  | _ => Raise (PyError TypeError "object is not subscriptable")
  end.

(** The items a [for] clause or [map] draws from [v]. *)
Definition iterate (v : json) : result error (list json) :=
  match v with
  | JArr xs => Ok xs
  | JObj kvs => Ok (map (fun kv => JStr (fst kv)) kvs)
  | JStr s => Ok (map (fun c => JStr (String c EmptyString)) (String.list_ascii_of_string s))
  | _ => Raise (PyError TypeError "object is not iterable")
  end.

(** Equality of two hashable items used as [dict] keys ([True == 1]). *)
Definition key_eqb (a b : json) : bool :=
  match a, b with
  | JNull, JNull => true
  | JStr s, JStr t => String.eqb s t
  | JInt x, JInt y => Z.eqb x y
  | JBool x, JBool y => Bool.eqb x y
  | JBool x, JInt y | JInt y, JBool x => Z.eqb (if x then 1 else 0) y
  | _, _ => false
  end.

(** [d[k] = v] on a [dict] kept in insertion order. *)
Fixpoint dict_set (k v : json) (d : list (json * json)) : list (json * json) :=
  match d with
  | [] => [(k, v)]
  | (k', v') :: d' =>
      if key_eqb k' k then (k', v) :: d' else (k', v') :: dict_set k v d'
  end.

(** Storing under a key hashes it; lists and dicts are unhashable. *)
Definition hashable (k : json) : result error unit :=
  match k with
  | JArr _ | JObj _ => Raise (PyError TypeError "unhashable type")
  | _ => Ok tt
  end.

Section Decoder.
(** [int(s)] and [bytes.fromhex(s)] for a [str]; [None] is [ValueError]. *)
Variable int_of_str : string -> option Z.
Variable fromhex_of_str : string -> option (list Byte.byte).

Definition bytes_fromhex (v : json) : result error (list Byte.byte) :=
  match v with
  | JStr s =>
      match fromhex_of_str s with
      | Some b => Ok b
      | None => Raise (PyError ValueError "non-hexadecimal number found in fromhex() arg")
      end
  | _ => Raise (PyError TypeError "fromhex() argument must be str")
  end.

Definition py_int (v : json) : result error Z :=
  match v with
  | JInt z => Ok z
  | JBool b => Ok (if b then 1 else 0)
  | JStr s =>
      match int_of_str s with
      | Some z => Ok z
      | None => Raise (PyError ValueError "invalid literal for int()")
      end
  | _ => Raise (PyError TypeError "int() argument must be a string or a number")
  end.

(** [{d["k"]: d["v"] for d in ds}], built item by item. *)
Fixpoint map_items (ds : list json) (acc : list (json * json))
  : result error (list (json * json)) :=
  match ds with
  | [] => Ok acc
  | d :: ds' =>
      k <- getitem d "k" ;;
      v <- getitem d "v" ;;
      _ <- hashable k ;;
      map_items ds' (dict_set k v acc)
  end.

(** The body of [data_from_json], with [rec] for its recursive calls. *)
Definition data_from_json_body (rec : json -> result error PlutusData)
    (j : json) : result error PlutusData :=
  b <- contains "bytes" j ;;
  if b then
    v <- getitem j "bytes" ;; x <- bytes_fromhex v ;; Ok (PlutusByteString x)
  else
  b <- contains "int" j ;;
  if b then
    v <- getitem j "int" ;; z <- py_int v ;; Ok (PlutusInteger z)
  else
  b <- contains "list" j ;;
  if b then
    v <- getitem j "list" ;; xs <- iterate v ;;
    ys <- map_result rec xs ;; Ok (PlutusList ys)
  else
  b <- contains "map" j ;;
  if b then
    v <- getitem j "map" ;; ds <- iterate v ;;
    m <- map_items ds [] ;; Ok (PlutusMap m)
  else
  b <- contains "constructor" j ;;
  b <- (if b then contains "fields" j else Ok false) ;;
  if b then
    c <- getitem j "constructor" ;; f <- getitem j "fields" ;;
    Ok (PlutusConstr c f)
  else Raise (PyError NotImplementedError "Unknown datum representation").

(** The body on an item that is not a [dict] with a decodable list: no
    recursive call is reached there (see [data_from_json_body_flat]). *)
Definition data_from_json_flat (j : json) : result error PlutusData :=
  data_from_json_body (fun _ => Raise (PyError NotImplementedError "")) j.

(** [data_from_json], by recursion on the structure of [j]: the elements
    of [j["list"]] are the only items decoded recursively.  The equation
    [data_from_json j = data_from_json_body data_from_json j] is
    [data_from_json_unfold] below. *)
Fixpoint data_from_json (j : json) : result error PlutusData :=
  match j with
  | JObj kvs =>
      if negb (dict_has "bytes" kvs) && negb (dict_has "int" kvs)
         && dict_has "list" kvs
      then
        (fix find (l : list (string * json)) : result error PlutusData :=
           match l with
           | [] => Raise (PyError KeyError "list")
           | (k, v) :: l' =>
               if String.eqb "list" k then
                 match v with
                 | JArr xs =>
                     ys <- (fix each (xs : list json) :=
                              match xs with
                              | [] => Ok []
                              | x :: xs' =>
                                  match data_from_json x with
                                  | Raise e => Raise e
                                  | Ok y =>
                                      match each xs' with
                                      | Raise e => Raise e
                                      | Ok ys => Ok (y :: ys)
                                      end
                                  end
                              end) xs ;;
                     Ok (PlutusList ys)
                 | _ =>
                     xs <- iterate v ;;
                     ys <- map_result data_from_json_flat xs ;;
                     Ok (PlutusList ys)
                 end
               else find l'
           end) kvs
      else data_from_json_flat j
  | _ => data_from_json_flat j
  end.

(** The spec's reading of the key tests: the shape is chosen by the first
    recognised key in the order bytes, int, list, map, constructor with
    fields. *)
Inductive shape := AsBytes | AsInt | AsList | AsMap | AsConstr.

Definition first_match (kvs : list (string * json)) : option shape :=
  if dict_has "bytes" kvs then Some AsBytes
  else if dict_has "int" kvs then Some AsInt
  else if dict_has "list" kvs then Some AsList
  else if dict_has "map" kvs then Some AsMap
  else if dict_has "constructor" kvs && dict_has "fields" kvs then Some AsConstr
  else None.

(** What the chosen shape makes of the dictionary. *)
Definition decode_as (s : shape) (j : json) : result error PlutusData :=
  match s with
  | AsBytes =>
      v <- getitem j "bytes" ;; x <- bytes_fromhex v ;; Ok (PlutusByteString x)
  | AsInt =>
      v <- getitem j "int" ;; z <- py_int v ;; Ok (PlutusInteger z)
  | AsList =>
      v <- getitem j "list" ;; xs <- iterate v ;;
      ys <- map_result data_from_json xs ;; Ok (PlutusList ys)
  | AsMap =>
      v <- getitem j "map" ;; ds <- iterate v ;;
      m <- map_items ds [] ;; Ok (PlutusMap m)
  | AsConstr =>
      c <- getitem j "constructor" ;; f <- getitem j "fields" ;;
      Ok (PlutusConstr c f)
  end.

(** The call ends in a [NotImplementedError]. *)
Definition raises_NotImplementedError {A} (r : result error A) : Prop :=
  exists msg, r = Raise (PyError NotImplementedError msg).

(** The items that [map(data_from_json, j["list"])] decodes. *)
Definition list_items (kvs : list (string * json)) : list json :=
  match dict_get "list" kvs with
  | Some v => match iterate v with Ok xs => xs | Raise _ => [] end
  | None => []
  end.

(** *** Properties *)

#[local] Arguments String.eqb : simpl never.

Lemma map_result_ext {A B} (f g : A -> result error B) xs :
  Forall (fun x => f x = g x) xs -> map_result f xs = map_result g xs.
Proof.
  induction 1 as [|x xs Hx _ IH]; simpl; [reflexivity|].
  now rewrite Hx, IH.
Qed.

(** [list(map(f, xs))] raises [e] exactly when [f] raises [e] on the first
    item on which it raises at all. *)
Lemma map_result_Raise {A B} (f : A -> result error B) xs e :
  map_result f xs = Raise e <->
  exists pre x post,
    xs = pre ++ x :: post /\
    Forall (fun y => exists d, f y = Ok d) pre /\
    f x = Raise e.
Proof.
  split.
  - revert e. induction xs as [|x xs IH]; simpl; intros e; [discriminate|].
    destruct (f x) as [y|ex] eqn:Ex.
    + destruct (map_result f xs) as [ys|es] eqn:Es; [discriminate|].
      intros [= <-]. destruct (IH es eq_refl) as (pre & x0 & post & -> & Hpre & Hx0).
      exists (x :: pre), x0, post. repeat split; eauto.
    + intros [= <-]. exists [], x, xs. repeat split; auto.
  - intros (pre & x & post & -> & Hpre & Hx).
    induction Hpre as [|y pre [d Hy] _ IH]; simpl.
    + now rewrite Hx.
    + now rewrite Hy, IH.
Qed.

(** An item that is not a [dict] is decoded without any recursive call. *)
Lemma data_from_json_body_flat rec rec' j :
  (forall kvs, j <> JObj kvs) ->
  data_from_json_body rec j = data_from_json_body rec' j.
Proof.
  intros Hj. destruct j as [| | | s | xs | kvs]; try reflexivity.
  now destruct (Hj kvs).
Qed.

Lemma iterate_not_array v xs :
  (forall ys, v <> JArr ys) -> iterate v = Ok xs ->
  Forall (fun x => data_from_json_flat x = data_from_json x) xs.
Proof.
  intros Hv. destruct v as [| | | s | ys | kvs]; simpl; try discriminate.
  - intros [= <-]. apply Forall_forall. intros x Hx.
    apply list_elem_of_In, in_map_iff in Hx. destruct Hx as (c & <- & _).
    reflexivity.
  - now destruct (Hv ys).
  - intros [= <-]. apply Forall_forall. intros x Hx.
    apply list_elem_of_In, in_map_iff in Hx. destruct Hx as (c & <- & _).
    reflexivity.
Qed.

(** The recursive definition satisfies the equation of the source. *)
Lemma data_from_json_unfold j :
  data_from_json j = data_from_json_body data_from_json j.
Proof.
  destruct j as [| | | s | xs | kvs];
    try (apply data_from_json_body_flat; discriminate).
  unfold data_from_json; fold data_from_json.
  unfold data_from_json_flat, data_from_json_body; simpl.
  destruct (dict_has "bytes" kvs); simpl; [reflexivity|].
  destruct (dict_has "int" kvs); simpl; [reflexivity|].
  destruct (dict_has "list" kvs) eqn:Hl; simpl; [|reflexivity].
  clear Hl. induction kvs as [|[k v] kvs IH]; simpl; [reflexivity|].
  destruct (String.eqb "list" k); simpl; [|exact IH].
  destruct v as [| | | s | xs | kvs']; simpl; try reflexivity.
  - rewrite (map_result_ext data_from_json_flat data_from_json); [reflexivity|].
    now apply (iterate_not_array (JStr s)).
  - assert (Heach : forall l,
              (fix each (xs : list json) :=
                 match xs with
                 | [] => Ok []
                 | x :: xs' =>
                     match data_from_json x with
                     | Raise e => Raise e
                     | Ok y =>
                         match each xs' with
                         | Raise e => Raise e
                         | Ok ys => Ok (y :: ys)
                         end
                     end
                 end) l = map_result data_from_json l).
    { induction l as [|x l IHl]; simpl; [reflexivity|]. now rewrite IHl. }
    now rewrite Heach.
  - rewrite (map_result_ext data_from_json_flat data_from_json); [reflexivity|].
    now apply (iterate_not_array (JObj kvs')).
Qed.

Lemma getitem_dict_has k kvs :
  dict_has k kvs = true -> exists v, getitem (JObj kvs) k = Ok v.
Proof.
  unfold dict_has, getitem. destruct (dict_get k kvs); [eauto|discriminate].
Qed.

Lemma map_items_not_NotImplemented ds acc :
  ~ raises_NotImplementedError (map_items ds acc).
Proof.
  revert acc. induction ds as [|d ds IH]; intros acc [msg H]; simpl in H;
    [discriminate|].
  destruct d as [| | | s | xs | kvs]; simpl in H; try discriminate.
  destruct (dict_get "k" kvs) as [k|]; simpl in H; [|discriminate].
  destruct (dict_get "v" kvs) as [v|]; simpl in H; [|discriminate].
  destruct k; simpl in H; try discriminate; apply (IH _ (ex_intro _ msg H)).
Qed.

(** Every shape but [AsList] either decodes or fails with an error other
    than [NotImplementedError]. *)
Lemma decode_as_not_NotImplemented s kvs :
  s <> AsList -> ~ raises_NotImplementedError (decode_as s (JObj kvs)).
Proof.
  intros Hs [msg H]. destruct s; simpl in H; try congruence.
  - destruct (dict_get "bytes" kvs) as [v|]; simpl in H; [|discriminate].
    destruct v; simpl in H; try discriminate.
    destruct (fromhex_of_str s); discriminate.
  - destruct (dict_get "int" kvs) as [v|]; simpl in H; [|discriminate].
    destruct v; simpl in H; try discriminate.
    destruct (int_of_str s); discriminate.
  - destruct (dict_get "map" kvs) as [v|]; simpl in H; [|discriminate].
    destruct (iterate v) as [ds|e] eqn:Ev; simpl in H.
    + destruct (map_items ds []) as [m|e] eqn:Em; simpl in H; [discriminate|].
      apply (map_items_not_NotImplemented ds []). exists msg.
      rewrite Em. injection H as ->. reflexivity.
    + destruct v; simpl in Ev; congruence.
  - destruct (dict_get "constructor" kvs); simpl in H; [|discriminate].
    destruct (dict_get "fields" kvs); simpl in H; discriminate.
Qed.

(** The dictionary is decoded by the first recognised key. *)
Lemma data_from_json_dict kvs :
  data_from_json (JObj kvs) =
    match first_match kvs with
    | Some s => decode_as s (JObj kvs)
    | None => Raise (PyError NotImplementedError "Unknown datum representation")
    end.
Proof.
  rewrite data_from_json_unfold.
  unfold data_from_json_body, first_match; simpl.
  destruct (dict_has "bytes" kvs); simpl; [reflexivity|].
  destruct (dict_has "int" kvs); simpl; [reflexivity|].
  destruct (dict_has "list" kvs); simpl; [reflexivity|].
  destruct (dict_has "map" kvs); simpl; [reflexivity|].
  destruct (dict_has "constructor" kvs); simpl; [|reflexivity].
  destruct (dict_has "fields" kvs); reflexivity.
Qed.

Lemma first_match_AsList kvs :
  first_match kvs = Some AsList -> exists v, dict_get "list" kvs = Some v.
Proof.
  unfold first_match.
  destruct (dict_has "bytes" kvs); [discriminate|].
  destruct (dict_has "int" kvs); [discriminate|].
  destruct (dict_has "list" kvs) eqn:Hl.
  - intros _. unfold dict_has in Hl.
    destruct (dict_get "list" kvs); [eauto|discriminate].
  - destruct (dict_has "map" kvs); [discriminate|].
    destruct (dict_has "constructor" kvs && dict_has "fields" kvs); discriminate.
Qed.

(** C10 (amended). A dictionary is decoded by the first of the tests
    bytes, int, list, map, constructor-with-fields that succeeds, in this
    order, and the function's own [NotImplementedError] is raised when none
    does.  The call ends in a [NotImplementedError] exactly when no test
    succeeds or when the list test is the first to succeed and decoding the
    items of [j["list"]] from left to right ends in one. *)
Theorem data_from_json_key_order (kvs : list (string * json)) :
  data_from_json (JObj kvs) =
    match first_match kvs with
    | Some s => decode_as s (JObj kvs)
    | None => Raise (PyError NotImplementedError "Unknown datum representation")
    end /\
  (raises_NotImplementedError (data_from_json (JObj kvs)) <->
     first_match kvs = None \/
     (first_match kvs = Some AsList /\
      exists pre x post,
        list_items kvs = pre ++ x :: post /\
        Forall (fun y => exists d, data_from_json y = Ok d) pre /\
        raises_NotImplementedError (data_from_json x))).
Proof.
  split; [apply data_from_json_dict|].
  rewrite data_from_json_dict.
  destruct (first_match kvs) as [s|] eqn:Hs.
  - assert (Hdec : s = AsList \/ s <> AsList)
      by (destruct s; (now left) || (now right)).
    destruct Hdec as [->|Hne].
    2:{ split.
        - intros H. now apply decode_as_not_NotImplemented in H.
        - intros [H|[H _]]; [discriminate|congruence]. }
    destruct (first_match_AsList kvs Hs) as [v Hv].
    unfold list_items, decode_as, getitem. rewrite Hv. simpl.
    destruct (iterate v) as [xs|e] eqn:Ev; simpl.
    + split.
      * intros [msg H]. right. split; [reflexivity|].
        destruct (map_result data_from_json xs) as [ys|e] eqn:Em;
          simpl in H; [discriminate|].
        injection H as ->.
        apply map_result_Raise in Em.
        destruct Em as (pre & x & post & -> & Hpre & Hx).
        exists pre, x, post. repeat split; auto. now exists msg.
      * intros [H|[_ (pre & x & post & Hxs & Hpre & [msg Hx])]]; [discriminate|].
        exists msg.
        assert (Em : map_result data_from_json xs
                     = Raise (PyError NotImplementedError msg)).
        { apply map_result_Raise. exists pre, x, post. auto. }
        now rewrite Em.
    + split.
      * intros [msg H]. destruct v; simpl in Ev; try discriminate;
          injection Ev as <-; discriminate.
      * intros [H|[_ (pre & x & post & Hxs & _)]]; [discriminate|].
        now destruct pre.
  - split; [now left|]. intros _. now eexists.
Qed.
End Decoder.

(** With the key [list] present and an item that has none of the keys, the
    call ends in a [NotImplementedError] although a recognised key is
    present: [{"list": [{}]}]. *)
Lemma data_from_json_nested_counterexample :
  let kvs := [("list", JArr [JObj []])] in
  ~ (raises_NotImplementedError
       (data_from_json (fun _ => None) (fun _ => None) (JObj kvs))
     <-> first_match kvs = None).
Proof.
  intros kvs [Hto _].
  assert (H : first_match kvs = None); [|discriminate H].
  apply Hto. now eexists.
Qed.

(** With several recognised keys the first test wins: [bytes] before
    [int]. *)
Example data_from_json_bytes_before_int :
  data_from_json (fun _ => Some 7) (fun _ => Some [])
    (JObj [("int", JInt 7); ("bytes", JStr "")]) = Ok (PlutusByteString []).
Proof. reflexivity. Qed.

(** *** Further properties of [data_from_json] *)

Section DecoderProperties.
Variable int_of_str : string -> option Z.
Variable fromhex_of_str : string -> option (list Byte.byte).

#[local] Arguments String.eqb : simpl never.

#[local] Abbreviation decode := (data_from_json int_of_str fromhex_of_str).

(** The data that a JSON value of the recursive fragment stands for: an
    object whose first recognised key is [bytes] with a hexadecimal string,
    [int] with an integer, or [list] with an array of such objects. *)
Inductive stands_for : json -> PlutusData -> Prop :=
| stands_for_bytes kvs s b :
    dict_get "bytes" kvs = Some (JStr s) ->
    fromhex_of_str s = Some b ->
    stands_for (JObj kvs) (PlutusByteString b)
| stands_for_int kvs z :
    dict_has "bytes" kvs = false ->
    dict_get "int" kvs = Some (JInt z) ->
    stands_for (JObj kvs) (PlutusInteger z)
| stands_for_list kvs xs ys :
    dict_has "bytes" kvs = false ->
    dict_has "int" kvs = false ->
    dict_get "list" kvs = Some (JArr xs) ->
    Forall2 stands_for xs ys ->
    stands_for (JObj kvs) (PlutusList ys).

Lemma map_result_Ok {A B} (f : A -> result error B) xs ys :
  map_result f xs = Ok ys <-> Forall2 (fun x y => f x = Ok y) xs ys.
Proof.
  split.
  - revert ys. induction xs as [|x xs IH]; simpl; intros ys.
    + intros [= <-]. constructor.
    + destruct (f x) as [y|e] eqn:Ex; [|discriminate].
      destruct (map_result f xs) as [ys'|e] eqn:Es; [|discriminate].
      intros [= <-]. constructor; auto.
  - induction 1 as [|x y xs ys Hxy _ IH]; simpl; [reflexivity|].
    now rewrite Hxy, IH.
Qed.

(** X2. Whatever is not a dictionary is never decoded: the call raises a
    [TypeError], or a [NotImplementedError] when none of the key tests
    succeeds on it. *)
Theorem data_from_json_needs_dict (j : json) :
  (forall kvs, j <> JObj kvs) ->
  exists cls msg,
    decode j = Raise (PyError cls msg) /\
    (cls = TypeError \/ cls = NotImplementedError).
Proof.
  intros Hj.
  destruct j as [| | | s | xs | kvs]; try (do 2 eexists; split; [reflexivity|auto]).
  - change (data_from_json int_of_str fromhex_of_str (JStr s))
      with (data_from_json_body int_of_str fromhex_of_str
              (fun _ => Raise (PyError NotImplementedError "")) (JStr s)).
    unfold data_from_json_body; simpl.
    repeat (match goal with
            | |- context [str_contains ?k s] => destruct (str_contains k s)
            end; simpl; try (do 2 eexists; split; [reflexivity|auto])).
  - change (data_from_json int_of_str fromhex_of_str (JArr xs))
      with (data_from_json_body int_of_str fromhex_of_str
              (fun _ => Raise (PyError NotImplementedError "")) (JArr xs)).
    unfold data_from_json_body; simpl.
    repeat (match goal with
            | |- context [existsb ?p xs] => destruct (existsb p xs)
            end; simpl; try (do 2 eexists; split; [reflexivity|auto])).
  - now destruct (Hj kvs).
Qed.

(** X3. A value of the recursive fragment is decoded to the data it stands
    for: integers and byte strings at the leaves, lists element by element
    and in order, to any depth. *)
Theorem data_from_json_decodes_fragment (j : json) (d : PlutusData) :
  stands_for j d -> decode j = Ok d.
Proof.
  revert j d. fix IH 3. intros j d H.
  destruct H as [kvs s b Hs Hb|kvs z Hb Hz|kvs xs ys Hb Hi Hl Hall];
    rewrite data_from_json_dict; unfold first_match.
  - unfold dict_has. rewrite Hs. simpl. rewrite Hs. simpl. now rewrite Hb.
  - rewrite Hb. unfold dict_has. rewrite Hz. simpl. now rewrite Hz.
  - rewrite Hb, Hi. unfold dict_has. rewrite Hl. simpl. rewrite Hl. simpl.
    assert (Hmap : map_result (data_from_json int_of_str fromhex_of_str) xs = Ok ys).
    { clear Hl. revert xs ys Hall. fix IHl 3.
      intros xs ys [|x y xs' ys' Hxy Hrest]; simpl; [reflexivity|].
      now rewrite (IH _ _ Hxy), (IHl _ _ Hrest). }
    now rewrite Hmap.
Qed.

(** X4. When the call returns a list, [list] was the first recognised key
    and the result holds the decoded items of [j["list"]], one for one
    and in their order. *)
Theorem data_from_json_list_items (kvs : list (string * json)) (ys : list PlutusData) :
  decode (JObj kvs) = Ok (PlutusList ys) ->
  first_match kvs = Some AsList /\
  Forall2 (fun x y => decode x = Ok y) (list_items kvs) ys.
Proof.
  rewrite data_from_json_dict.
  destruct (first_match kvs) as [[]|] eqn:Hs; unfold decode_as; try discriminate.
  - destruct (getitem (JObj kvs) "bytes") as [v|e]; simpl; [|discriminate].
    destruct (bytes_fromhex fromhex_of_str v); discriminate.
  - destruct (getitem (JObj kvs) "int") as [v|e]; simpl; [|discriminate].
    destruct (py_int int_of_str v); discriminate.
  - intros H. split; [reflexivity|]. unfold list_items.
    unfold getitem in H.
    destruct (dict_get "list" kvs) as [v|]; simpl in H; [|discriminate].
    destruct (iterate v) as [xs|e]; simpl in H; [|discriminate].
    destruct (map_result (data_from_json int_of_str fromhex_of_str) xs)
      as [ys'|e] eqn:Hmap; simpl in H; [|discriminate].
    injection H as <-. now apply map_result_Ok.
  - destruct (getitem (JObj kvs) "map") as [v|e]; simpl; [|discriminate].
    destruct (iterate v) as [ds|e]; simpl; [|discriminate].
    destruct (map_items ds []); discriminate.
  - destruct (getitem (JObj kvs) "constructor"); simpl; [|discriminate].
    destruct (dict_get "fields" kvs); discriminate.
Qed.

(** The items of a map that [map_items] can read: dictionaries with the
    keys [k] and [v]. *)
Definition has_k_and_v (d : json) : Prop :=
  exists k v, getitem d "k" = Ok k /\ getitem d "v" = Ok v.

(** The item is stored under a list or a dictionary. *)
Definition has_unhashable_k (d : json) : Prop :=
  exists k, getitem d "k" = Ok k /\ hashable k <> Ok tt.

Lemma map_items_unhashable (ds : list json) (acc : list (json * json)) :
  Forall has_k_and_v ds -> Exists has_unhashable_k ds ->
  map_items ds acc = Raise (PyError TypeError "unhashable type").
Proof.
  intros Hall Hex. revert acc.
  induction Hall as [|d ds (k & v & Hk & Hv) _ IH]; intros acc.
  - inversion Hex.
  - simpl. rewrite Hk, Hv. simpl.
    destruct (hashable k) as [[]|e] eqn:Hh.
    + simpl. apply IH. inversion Hex as [? ? (k' & Hk' & Hn)|]; subst; [|assumption].
      rewrite Hk in Hk'. injection Hk' as <-. contradiction.
    + destruct k; simpl in Hh; try discriminate; injection Hh as <-; reflexivity.
Qed.

(** X5. A map is built with the items' [k] values as keys of a Python
    dictionary, undecoded: when the items are well formed and one of them
    has a list or a dictionary as its [k], as every encoded datum is, the
    call raises [TypeError]. *)
Theorem data_from_json_map_unhashable (kvs : list (string * json)) (ds : list json) :
  first_match kvs = Some AsMap ->
  dict_get "map" kvs = Some (JArr ds) ->
  Forall has_k_and_v ds ->
  Exists has_unhashable_k ds ->
  decode (JObj kvs) = Raise (PyError TypeError "unhashable type").
Proof.
  intros Hs Hmap Hall Hex.
  rewrite data_from_json_dict, Hs. simpl. rewrite Hmap. simpl.
  now rewrite (map_items_unhashable ds [] Hall Hex).
Qed.
End DecoderProperties.

Lemma data_from_json_needs_dict_witness :
  (forall kvs, JInt 5 <> JObj kvs) /\
  exists cls msg,
    data_from_json (fun _ => None) (fun _ => None) (JInt 5) = Raise (PyError cls msg) /\
    (cls = TypeError \/ cls = NotImplementedError).
Proof.
  assert (H : forall kvs, JInt 5 <> JObj kvs) by discriminate.
  split; [exact H|].
  exact (data_from_json_needs_dict (fun _ => None) (fun _ => None) (JInt 5) H).
Defined.

(** [bytes.fromhex] on the empty string and on nothing else. *)
Definition fromhex_empty (s : string) : option (list Byte.byte) :=
  if String.eqb s "" then Some [] else None.

(** [{"list": [{"int": 1}, {"bytes": ""}]}] *)
Definition list_of_int_and_bytes : json :=
  JObj [("list", JArr [JObj [("int", JInt 1)]; JObj [("bytes", JStr "")]])].

Lemma data_from_json_decodes_fragment_witness :
  stands_for fromhex_empty list_of_int_and_bytes
    (PlutusList [PlutusInteger 1; PlutusByteString []]) /\
  data_from_json (fun _ => None) fromhex_empty list_of_int_and_bytes
    = Ok (PlutusList [PlutusInteger 1; PlutusByteString []]).
Proof.
  assert (H : stands_for fromhex_empty list_of_int_and_bytes
                (PlutusList [PlutusInteger 1; PlutusByteString []])).
  { apply stands_for_list with (xs := [JObj [("int", JInt 1)]; JObj [("bytes", JStr "")]]);
      try reflexivity.
    constructor; [apply stands_for_int; reflexivity|].
    constructor; [apply stands_for_bytes with (s := ""); reflexivity|constructor]. }
  split; [exact H|].
  exact (data_from_json_decodes_fragment (fun _ => None) fromhex_empty _ _ H).
Defined.

Lemma data_from_json_list_items_witness :
  data_from_json (fun _ => None) fromhex_empty list_of_int_and_bytes
    = Ok (PlutusList [PlutusInteger 1; PlutusByteString []]) /\
  Forall2 (fun x y => data_from_json (fun _ => None) fromhex_empty x = Ok y)
    [JObj [("int", JInt 1)]; JObj [("bytes", JStr "")]]
    [PlutusInteger 1; PlutusByteString []].
Proof.
  assert (H : data_from_json (fun _ => None) fromhex_empty list_of_int_and_bytes
              = Ok (PlutusList [PlutusInteger 1; PlutusByteString []]))
    by reflexivity.
  split; [exact H|].
  exact (proj2 (data_from_json_list_items (fun _ => None) fromhex_empty
                  [("list", JArr [JObj [("int", JInt 1)]; JObj [("bytes", JStr "")]])]
                  _ H)).
Defined.

(** [{"map": [{"k": {"int": 1}, "v": {"int": 2}}]}] *)
Lemma data_from_json_map_unhashable_witness :
  let item := JObj [("k", JObj [("int", JInt 1)]); ("v", JObj [("int", JInt 2)])] in
  let kvs := [("map", JArr [item])] in
  first_match kvs = Some AsMap /\
  dict_get "map" kvs = Some (JArr [item]) /\
  Forall has_k_and_v [item] /\
  Exists has_unhashable_k [item] /\
  data_from_json (fun _ => None) (fun _ => None) (JObj kvs)
    = Raise (PyError TypeError "unhashable type").
Proof.
  intros item kvs.
  assert (H1 : first_match kvs = Some AsMap) by reflexivity.
  assert (H2 : dict_get "map" kvs = Some (JArr [item])) by reflexivity.
  assert (H3 : Forall has_k_and_v [item]).
  { constructor; [|constructor]. do 2 eexists. split; reflexivity. }
  assert (H4 : Exists has_unhashable_k [item]).
  { constructor. eexists. split; [reflexivity|discriminate]. }
  repeat (split; [assumption|]).
  exact (data_from_json_map_unhashable (fun _ => None) (fun _ => None) kvs [item]
           H1 H2 H3 H4).
Defined.

End Datum.

(** ** The IR of the built-ins *)

Module uplc.
(** [uplc.BuiltInFun], as far as [util.py] names it. *)
Inductive BuiltInFun := AddInteger.
End uplc.

(** The IR constructors of the [pluthon] library that [util.py] uses, and
    their evaluation on the VM. *)
Module plt.

Inductive AST :=
| Var (name : string)
| Lambda (vars : list string) (term : AST)
| Apply (f : AST) (xs : list AST)
| Integer (x : Z)
| Bool (x : bool)
| NoneData
| BuiltIn (builtin : uplc.BuiltInFun)
| And (x y : AST)
| Or (x y : AST)
| Ite (i t e : AST)
| LessThanInteger (x y : AST)
| AddInteger (x y : AST)
| SubtractInteger (x y : AST)
| LengthOfByteString (x : AST)
| Trace (x y : AST)
| Range (limit : AST)
| FoldList (l f a : AST).

(** Values of the VM.  A lambda of several variables is curried: applying
    it to one argument binds the first variable. *)
Inductive value :=
| VInteger (z : Z)
| VBool (b : bool)
| VByteString (bs : list Byte.byte)
| VString (s : string)
| VNoneData
| VList (xs : list value)
| VLambda (env : list (string * value)) (vars : list string) (term : AST)
| VBuiltIn (builtin : uplc.BuiltInFun) (args : list value).

Definition env := list (string * value).

(** Evaluation fails with a script error, or the fuel of the evaluator runs
    out. *)
Inductive eval_error := ScriptError | OutOfFuel.

Definition outcome := result eval_error value.

Fixpoint fold_left_result {E A B} (f : A -> B -> result E A) (xs : list B) (a : A)
  : result E A :=
  match xs with
  | [] => Ok a
  | x :: xs' => a' <- f a x ;; fold_left_result f xs' a'
  end.

(** A built-in applied to its last argument computes; before that it
    collects arguments. *)
Definition apply_builtin (b : uplc.BuiltInFun) (args : list value) (arg : value)
  : outcome :=
  match b, args with
  | uplc.AddInteger, [] => Ok (VBuiltIn b [arg])
  | uplc.AddInteger, [VInteger x] =>
      match arg with
      | VInteger y => Ok (VInteger (Z.add x y))
      | _ => Raise ScriptError
      end
  | uplc.AddInteger, _ => Raise ScriptError
  end.

(** Application of a function value to one argument; [ev] evaluates the
    body of a lambda. *)
Definition apply1 (ev : env -> AST -> outcome) (f arg : value) : outcome :=
  match f with
  | VLambda cenv [x] body => ev ((x, arg) :: cenv) body
  | VLambda cenv (x :: rest) body => Ok (VLambda ((x, arg) :: cenv) rest body)
  | VBuiltIn b args => apply_builtin b args arg
  | _ => Raise ScriptError
  end.

Definition apply_all (ev : env -> AST -> outcome) (f : value) (args : list value)
  : outcome :=
  fold_left_result (apply1 ev) args f.

Definition as_integer (v : value) : result eval_error Z :=
  match v with
  | VInteger z => Ok z
  | _ => Raise ScriptError
  end.

(** The integers [0, limit) in increasing order. *)
Definition range_list (limit : Z) : list value :=
  map (fun i => VInteger (Z.of_nat i)) (seq 0 (Z.to_nat limit)).

Fixpoint eval (fuel : nat) (rho : env) (t : AST) : outcome :=
  match fuel with
  | O => Raise OutOfFuel
  | S n =>
      match t with
      | Var x =>
          match dict_get x rho with
          | Some v => Ok v
          | None => Raise ScriptError
          end
      | Lambda vars term => Ok (VLambda rho vars term)
      | Apply f xs =>
          fv <- eval n rho f ;;
          args <- map_result (eval n rho) xs ;;
          apply_all (eval n) fv args
      | Integer x => Ok (VInteger x)
      | Bool x => Ok (VBool x)
      | NoneData => Ok VNoneData
      | BuiltIn b => Ok (VBuiltIn b [])
      | And x y =>
          c <- eval n rho x ;;
          match c with
          | VBool true => eval n rho y
          | VBool false => Ok (VBool false)
          | _ => Raise ScriptError
          end
      | Or x y =>
          c <- eval n rho x ;;
          match c with
          | VBool true => Ok (VBool true)
          | VBool false => eval n rho y
          | _ => Raise ScriptError
          end
      | Ite i t e =>
          c <- eval n rho i ;;
          match c with
          | VBool true => eval n rho t
          | VBool false => eval n rho e
          | _ => Raise ScriptError
          end
      | LessThanInteger x y =>
          a <- (v <- eval n rho x ;; as_integer v) ;;
          b <- (v <- eval n rho y ;; as_integer v) ;;
          Ok (VBool (Z.ltb a b))
      | AddInteger x y =>
          a <- (v <- eval n rho x ;; as_integer v) ;;
          b <- (v <- eval n rho y ;; as_integer v) ;;
          Ok (VInteger (Z.add a b))
      | SubtractInteger x y =>
          a <- (v <- eval n rho x ;; as_integer v) ;;
          b <- (v <- eval n rho y ;; as_integer v) ;;
          Ok (VInteger (Z.sub a b))
      | LengthOfByteString x =>
          v <- eval n rho x ;;
          match v with
          | VByteString bs => Ok (VInteger (Z.of_nat (length bs)))
          | _ => Raise ScriptError
          end
      | Trace x y =>
          v <- eval n rho x ;;
          match v with
          | VString _ => eval n rho y
          | _ => Raise ScriptError
          end
      | Range limit =>
          l <- (v <- eval n rho limit ;; as_integer v) ;;
          Ok (VList (range_list l))
      | FoldList l f a =>
          fv <- eval n rho f ;;
          lv <- eval n rho l ;;
          av <- eval n rho a ;;
          match lv with
          | VList xs =>
              fold_left_result (fun acc x => apply_all (eval n) fv [acc; x]) xs av
          | _ => Raise ScriptError
          end
      end
  end.

(** Running a closed term on the arguments supplied by the caller. *)
Definition run (fuel : nat) (t : AST) (args : list value) : outcome :=
  f <- eval fuel [] t ;; apply_all (eval fuel) f args.

End plt.

(** ** The built-in catalogue of [util.py] *)

Module Builtins.

(** Modelled from the spec: the type classes of [typed_ast], which is not
    part of the sources at hand, after the table of kinds in section 3; the
    names are those [util.py] uses.  Two types are equal iff they are
    structurally equal. *)
Inductive type :=
| IntegerType
| ByteStringType
| StringType
| BoolType
| UnitType
| ListType (typ : type)
| DictType (key_typ value_typ : type)
| RecordType (constructor : Z) (fields : list (string * type))
| UnionType (typs : list type)
| FunctionType (argtyps : list type) (rettyp : type)
| PolymorphicFunctionType (polymorphic_function : string)
| InstanceType (typ : type).

Definition IntegerInstanceType := InstanceType IntegerType.
Definition ByteStringInstanceType := InstanceType ByteStringType.
Definition StringInstanceType := InstanceType StringType.
Definition BoolInstanceType := InstanceType BoolType.
Definition NoneInstanceType := InstanceType UnitType.

(** The members of the enumeration [PythonBuiltIn]. *)
Inductive PythonBuiltIn :=
| all | any | abs | breakpoint | len | print | range | sum.

(** The value of each member: its IR lambda, or [auto()] for [len], whose
    lambda is chosen by [Len.impl_from_args]. *)
Definition PythonBuiltIn_value (b : PythonBuiltIn) : option plt.AST :=
  match b with
  | all =>
      Some (plt.Lambda ["xs"; "_"]
              (plt.FoldList
                 (plt.Var "xs")
                 (plt.Lambda ["x"; "a"] (plt.And (plt.Var "x") (plt.Var "a")))
                 (plt.Integer 0)))
  | any =>
      Some (plt.Lambda ["xs"; "_"]
              (plt.FoldList
                 (plt.Var "xs")
                 (plt.Lambda ["x"; "a"] (plt.Or (plt.Var "x") (plt.Var "a")))
                 (plt.Integer 0)))
  | abs =>
      Some (plt.Lambda ["x"; "_"]
              (plt.Ite
                 (plt.LessThanInteger (plt.Var "x") (plt.Integer 0))
                 (plt.SubtractInteger (plt.Integer 0) (plt.Var "x"))
                 (plt.Var "x")))
  | breakpoint => Some (plt.Lambda ["_"] plt.NoneData)
  | len => None
  | print =>
      Some (plt.Lambda ["x"; "_"] (plt.Trace (plt.Var "x") plt.NoneData))
  | range =>
      Some (plt.Lambda ["limit"; "_"] (plt.Range (plt.Var "limit")))
  | sum =>
      Some (plt.Lambda ["xs"; "_"]
              (plt.FoldList
                 (plt.Var "xs") (plt.BuiltIn uplc.AddInteger) (plt.Integer 0)))
  end.

(** [isinstance(t, InstanceType)] *)
Definition isinstance_InstanceType (t : type) : bool :=
  match t with
  | InstanceType _ => true
  | _ => false
  end.

(** [assert cond, msg] *)
Definition py_assert (cond : bool) (msg : string) : result Datum.error unit :=
  if cond then Ok tt else Raise (PyError AssertionError msg).

(** The polymorphic function [Len]. *)
Module Len.

Definition type_from_args (args : list type) : result Datum.error type :=
  _ <- py_assert (Nat.eqb (length args) 1) "'len' takes only one argument" ;;
  _ <- py_assert (match args with
                  | a :: _ => isinstance_InstanceType a
                  | [] => false
                  end) "Can only determine length of instances" ;;
  Ok (FunctionType args IntegerInstanceType).

(** The two lambdas [impl_from_args] can return. *)
Definition bytestring_impl : plt.AST :=
  plt.Lambda ["x"; "_"] (plt.LengthOfByteString (plt.Var "x")).

Definition list_impl : plt.AST :=
  plt.Lambda ["x"; "_"]
    (plt.FoldList
       (plt.Var "x")
       (plt.Lambda ["a"; "_"] (plt.AddInteger (plt.Var "a") (plt.Integer 1)))
       (plt.Integer 0)).

Definition impl_from_args (args : list type) : result Datum.error plt.AST :=
  match args with
  | [] => Raise (PyError IndexError "list index out of range")
  | arg :: _ =>
      _ <- py_assert (isinstance_InstanceType arg)
             "Can only determine length of instances" ;;
      match arg with
      | InstanceType ByteStringType => Ok bytestring_impl
      | InstanceType (ListType _) => Ok list_impl
      | _ => Raise (PyError NotImplementedError "'len' is not implemented for type")
      end
  end.

End Len.

(** [PythonBuiltInTypes] *)
Definition PythonBuiltInTypes (b : PythonBuiltIn) : type :=
  match b with
  | all => InstanceType (FunctionType [InstanceType (ListType BoolInstanceType)] BoolInstanceType)
  | any => InstanceType (FunctionType [InstanceType (ListType BoolInstanceType)] BoolInstanceType)
  | abs => InstanceType (FunctionType [IntegerInstanceType] IntegerInstanceType)
  | breakpoint => InstanceType (FunctionType [] NoneInstanceType)
  | len => InstanceType (PolymorphicFunctionType "Len")
  | print => InstanceType (FunctionType [StringInstanceType] NoneInstanceType)
  | range =>
      InstanceType (FunctionType [IntegerInstanceType]
                      (InstanceType (ListType IntegerInstanceType)))
  | sum =>
      InstanceType (FunctionType [InstanceType (ListType IntegerInstanceType)]
                      IntegerInstanceType)
  end.

(** The IR lambda of [all] applied to a list of Booleans and the trailing
    argument every built-in receives. *)
Definition run_all (fuel : nat) (bs : list bool) : plt.outcome :=
  match PythonBuiltIn_value all with
  | Some t => plt.run fuel t [plt.VList (map plt.VBool bs); plt.VNoneData]
  | None => Raise plt.ScriptError
  end.

(** *** Properties *)

(** C4. On the empty list the lambda of [all] returns its initial
    accumulator, the integer 0, which is not the Boolean true; on a list
    with a first element it fails, because the conjunction receives that
    integer as its condition. *)
Theorem all_lambda_starts_from_integer (fuel : nat) :
  run_all (4 + fuel) [] = Ok (plt.VInteger 0) /\
  run_all (4 + fuel) [] <> Ok (plt.VBool true) /\
  forall b bs, run_all (4 + fuel) (b :: bs) = Raise plt.ScriptError.
Proof.
  split; [reflexivity|]. split; [discriminate|].
  intros b bs. reflexivity.
Qed.

(** The fold of the list variant of [len] adds one per element. *)
Lemma len_fold_counts (fuel : nat) (rho : plt.env) (xs : list plt.value) (acc : Z) :
  plt.fold_left_result
    (fun a x =>
       plt.apply_all (plt.eval (S (S fuel)))
         (plt.VLambda rho ["a"; "_"]
            (plt.AddInteger (plt.Var "a") (plt.Integer 1)))
         [a; x])
    xs (plt.VInteger acc)
  = Ok (plt.VInteger (acc + Z.of_nat (length xs))).
Proof.
  revert acc. induction xs as [|x xs IH]; intros acc.
  - simpl. now rewrite Z.add_0_r.
  - change (plt.fold_left_result ?f (x :: xs) ?a)
      with (a' <- f a x ;; plt.fold_left_result f xs a').
    cbv beta.
    change (plt.apply_all (plt.eval (S (S fuel)))
              (plt.VLambda rho ["a"; "_"]
                 (plt.AddInteger (plt.Var "a") (plt.Integer 1)))
              [plt.VInteger acc; x])
      with (@Ok plt.eval_error _ (plt.VInteger (acc + 1))).
    cbv beta iota delta [bind_result]. rewrite IH. f_equal. f_equal.
    rewrite length_cons. lia.
Qed.

(** C7. For a single argument of instance type the signature inferred for
    [len] returns integer.  The implementation is defined for the byte
    string, where the lambda yields the number of bytes, and for every list,
    where the lambda is a fold that yields the number of elements; for any
    other instance type it raises [NotImplementedError]. *)
Theorem len_specialisation :
  (forall t,
     Len.type_from_args [InstanceType t]
       = Ok (FunctionType [InstanceType t] IntegerInstanceType)) /\
  (Len.impl_from_args [ByteStringInstanceType] = Ok Len.bytestring_impl /\
   forall bs u fuel,
     plt.run (3 + fuel) Len.bytestring_impl [plt.VByteString bs; u]
       = Ok (plt.VInteger (Z.of_nat (length bs)))) /\
  ((forall t, Len.impl_from_args [InstanceType (ListType t)] = Ok Len.list_impl) /\
   forall xs u fuel,
     plt.run (4 + fuel) Len.list_impl [plt.VList xs; u]
       = Ok (plt.VInteger (Z.of_nat (length xs)))) /\
  (forall t,
     t <> ByteStringType -> (forall e, t <> ListType e) ->
     exists msg,
       Len.impl_from_args [InstanceType t] = Raise (PyError NotImplementedError msg)).
Proof.
  split; [reflexivity|].
  split; [split; [reflexivity|intros; reflexivity]|].
  split.
  - split; [reflexivity|]. intros xs u fuel.
    change (plt.run (4 + fuel) Len.list_impl [plt.VList xs; u])
      with (r <- plt.fold_left_result
                   (fun a x =>
                      plt.apply_all (plt.eval (S (S (S fuel))))
                        (plt.VLambda [("_", u); ("x", plt.VList xs)] ["a"; "_"]
                           (plt.AddInteger (plt.Var "a") (plt.Integer 1)))
                        [a; x])
                   xs (plt.VInteger 0) ;;
            @Ok plt.eval_error _ r).
    now rewrite (len_fold_counts (S fuel)).
  - intros t Hb Hl.
    destruct t; try (eexists; reflexivity).
    + now destruct Hb.
    + now destruct (Hl t).
Qed.

Lemma len_specialisation_witness :
  IntegerType <> ByteStringType /\
  (forall e, IntegerType <> ListType e) /\
  exists msg,
    Len.impl_from_args [IntegerInstanceType] = Raise (PyError NotImplementedError msg).
Proof.
  split; [discriminate|]. split; [discriminate|].
  apply (proj2 (proj2 (proj2 len_specialisation)) IntegerType); discriminate.
Defined.

(** *** Further properties of the catalogue *)

(** The IR lambda of a built-in run on the arguments of a call. *)
Definition run_builtin (fuel : nat) (b : PythonBuiltIn) (args : list plt.value)
  : plt.outcome :=
  match PythonBuiltIn_value b with
  | Some t => plt.run fuel t args
  | None => Raise plt.ScriptError
  end.

(** X6. The lambda of [abs] returns the absolute value of every integer. *)
Theorem abs_lambda_absolute_value (x : Z) (u : plt.value) (fuel : nat) :
  run_builtin (3 + fuel) abs [plt.VInteger x; u] = Ok (plt.VInteger (Z.abs x)).
Proof.
  change (run_builtin (3 + fuel) abs [plt.VInteger x; u])
    with (r <- (if Z.ltb x 0
                then @Ok plt.eval_error _ (plt.VInteger (Z.sub 0 x))
                else Ok (plt.VInteger x)) ;;
          @Ok plt.eval_error _ r).
  destruct (Z.ltb_spec x 0); simpl; do 2 f_equal; lia.
Qed.

(** The fold of [sum] adds the elements to the accumulator. *)
Lemma sum_fold_adds (ev : plt.env -> plt.AST -> plt.outcome) (xs : list Z) (acc : Z) :
  plt.fold_left_result
    (fun a x => plt.apply_all ev (plt.VBuiltIn uplc.AddInteger []) [a; x])
    (map plt.VInteger xs) (plt.VInteger acc)
  = Ok (plt.VInteger (acc + fold_right Z.add 0 xs)).
Proof.
  revert acc. induction xs as [|x xs IH]; intros acc; simpl.
  - now rewrite Z.add_0_r.
  - rewrite IH. do 2 f_equal. lia.
Qed.

(** X7. The lambda of [sum] returns the sum of a list of integers, 0 for
    the empty list. *)
Theorem sum_lambda_adds_up (xs : list Z) (u : plt.value) (fuel : nat) :
  run_builtin (2 + fuel) sum [plt.VList (map plt.VInteger xs); u]
  = Ok (plt.VInteger (fold_right Z.add 0 xs)).
Proof.
  change (run_builtin (2 + fuel) sum [plt.VList (map plt.VInteger xs); u])
    with (r <- plt.fold_left_result
                 (fun a x =>
                    plt.apply_all (plt.eval (S fuel))
                      (plt.VBuiltIn uplc.AddInteger []) [a; x])
                 (map plt.VInteger xs) (plt.VInteger 0) ;;
          @Ok plt.eval_error _ r).
  now rewrite sum_fold_adds.
Qed.

(** X8. The lambda of [any] starts its fold from the integer 0, as the one
    of [all] does: it returns that integer on the empty list and fails on
    every list with a first element. *)
Theorem any_lambda_starts_from_integer (fuel : nat) :
  run_builtin (4 + fuel) any [plt.VList []; plt.VNoneData] = Ok (plt.VInteger 0) /\
  forall b bs,
    run_builtin (4 + fuel) any [plt.VList (map plt.VBool (b :: bs)); plt.VNoneData]
    = Raise plt.ScriptError.
Proof.
  split; [reflexivity|]. intros b bs. reflexivity.
Qed.

(** X9. Every built-in with a lambda of its own is registered with a
    function type, and the lambda binds one variable per declared argument
    and a trailing one. *)
Theorem builtin_lambda_arity (b : PythonBuiltIn) (t : plt.AST) :
  PythonBuiltIn_value b = Some t ->
  exists vars body argtyps rettyp,
    t = plt.Lambda vars body /\
    PythonBuiltInTypes b = InstanceType (FunctionType argtyps rettyp) /\
    length vars = S (length argtyps).
Proof.
  destruct b; simpl; intros [= <-]; do 4 eexists;
    (split; [reflexivity|split; reflexivity]).
Qed.

Lemma builtin_lambda_arity_witness :
  PythonBuiltIn_value breakpoint = Some (plt.Lambda ["_"] plt.NoneData) /\
  exists vars body argtyps rettyp,
    plt.Lambda ["_"] plt.NoneData = plt.Lambda vars body /\
    PythonBuiltInTypes breakpoint = InstanceType (FunctionType argtyps rettyp) /\
    length vars = S (length argtyps).
Proof.
  split; [reflexivity|].
  exact (builtin_lambda_arity breakpoint (plt.Lambda ["_"] plt.NoneData) eq_refl).
Defined.

(** X10. [type_from_args] returns a type exactly for one argument of
    instance type; for any other list of arguments it fails on one of its
    two assertions. *)
Theorem type_from_args_domain (args : list type) :
  (forall t,
     Len.type_from_args args = Ok t <->
     exists a, args = [InstanceType a] /\
               t = FunctionType [InstanceType a] IntegerInstanceType) /\
  ((forall a, args <> [InstanceType a]) ->
   exists msg, Len.type_from_args args = Raise (PyError AssertionError msg)).
Proof.
  split.
  - intros t. split.
    + destruct args as [|a [|a' rest]]; try discriminate.
      destruct a; try discriminate. intros [= <-]. eauto.
    + intros (a & -> & ->). reflexivity.
  - intros Hnot. destruct args as [|a [|a' rest]]; try (eexists; reflexivity).
    destruct a; try (eexists; reflexivity). now destruct (Hnot a).
Qed.

Lemma type_from_args_domain_witness :
  (forall a, [IntegerInstanceType; IntegerInstanceType] <> [InstanceType a]) /\
  exists msg,
    Len.type_from_args [IntegerInstanceType; IntegerInstanceType]
    = Raise (PyError AssertionError msg).
Proof.
  assert (H : forall a,
            [IntegerInstanceType; IntegerInstanceType] <> [InstanceType a])
    by discriminate.
  split; [exact H|].
  exact (proj2 (type_from_args_domain [IntegerInstanceType; IntegerInstanceType]) H).
Defined.

(** X11. [impl_from_args] looks at the first argument only: further
    arguments change nothing, an empty list is an [IndexError], and a first
    argument that is not of instance type fails the assertion.  Whenever
    [type_from_args] accepts the arguments, [impl_from_args] returns one of
    the two lambdas or raises [NotImplementedError]. *)
Theorem impl_from_args_first_argument :
  (forall a rest, Len.impl_from_args (a :: rest) = Len.impl_from_args [a]) /\
  (exists msg, Len.impl_from_args [] = Raise (PyError IndexError msg)) /\
  (forall a rest,
     isinstance_InstanceType a = false ->
     exists msg, Len.impl_from_args (a :: rest) = Raise (PyError AssertionError msg)) /\
  (forall args t,
     Len.type_from_args args = Ok t ->
     Len.impl_from_args args = Ok Len.bytestring_impl \/
     Len.impl_from_args args = Ok Len.list_impl \/
     exists msg, Len.impl_from_args args = Raise (PyError NotImplementedError msg)).
Proof.
  split; [reflexivity|]. split; [eexists; reflexivity|]. split.
  - intros a rest Ha. destruct a; try discriminate; eexists; reflexivity.
  - intros args t. destruct args as [|a [|a' rest]]; try discriminate.
    destruct a as [| | | | | | | | | | |a]; try discriminate. intros _.
    destruct a; simpl; eauto.
Qed.

Lemma impl_from_args_first_argument_witness :
  isinstance_InstanceType IntegerType = false /\
  exists msg,
    Len.impl_from_args [IntegerType; ByteStringInstanceType]
    = Raise (PyError AssertionError msg).
Proof.
  split; [reflexivity|].
  exact (proj1 (proj2 (proj2 impl_from_args_first_argument))
           IntegerType [ByteStringInstanceType] eq_refl).
Defined.

End Builtins.

(** ** Matching the arguments of a call *)

Module Keywords.

Section Calls.
(** The expressions of the source program and the IR they are lowered
    to. *)
Context {E IR : Type}.

(** Modelled from the spec: an argument as written at the call site, in
    source order (section 4.2, Call). *)
Inductive argument :=
| Positional (value : E)
| Keyword (name : string) (value : E).

(** Modelled from the spec: a parameter of a function definition, with its
    name and optional default-value expression (section 3, Typed AST). *)
Record parameter := { param_name : string; param_default : option E }.

(** Modelled from the spec: the signature errors of section 7. *)
Inductive rejection :=
| PositionalAfterKeyword
| ArityMismatch
| DuplicateArgument
| UnknownKeyword
| MissingArgument.

(** Modelled from the spec: rule (iii); scanning left to right, a
    positional argument met after a keyword argument is a syntactic error. *)
Fixpoint positional_after_keyword (seen_keyword : bool) (args : list argument)
  : bool :=
  match args with
  | [] => false
  | Positional _ :: rest =>
      seen_keyword || positional_after_keyword seen_keyword rest
  | Keyword _ _ :: rest => positional_after_keyword true rest
  end.

(** Modelled from the spec: rule (i); positional arguments fill the
    parameters left to right. *)
Fixpoint fill_positional (params : list parameter) (args : list argument)
  : result rejection (list (string * E) * list argument) :=
  match args with
  | Positional e :: rest =>
      match params with
      | [] => Raise ArityMismatch
      | p :: params' =>
          r <- fill_positional params' rest ;;
          Ok ((param_name p, e) :: fst r, snd r)
      end
  | _ => Ok ([], args)
  end.

(** Modelled from the spec: rules (ii) and (iv), and the rejection of
    unknown keyword names. *)
Fixpoint fill_keywords (params : list parameter) (args : list argument)
    (assigned : list (string * E)) : result rejection (list (string * E)) :=
  match args with
  | [] => Ok assigned
  | Positional _ :: _ => Raise PositionalAfterKeyword
  | Keyword name e :: rest =>
      if negb (existsb (fun p => String.eqb (param_name p) name) params)
      then Raise UnknownKeyword
      else if dict_has name assigned then Raise DuplicateArgument
      else fill_keywords params rest (assigned ++ [(name, e)])
  end.

(** Modelled from the spec: rule (v); a parameter without an argument takes
    its default. *)
Fixpoint in_parameter_order (params : list parameter)
    (assigned : list (string * E)) : result rejection (list E) :=
  match params with
  | [] => Ok []
  | p :: params' =>
      e <- match dict_get (param_name p) assigned, param_default p with
           | Some e, _ => Ok e
           | None, Some d => Ok d
           | None, None => Raise MissingArgument
           end ;;
      es <- in_parameter_order params' assigned ;;
      Ok (e :: es)
  end.

(** Modelled from the spec: the matching of the arguments of a call
    against the parameters of the callee (section 4.2, rules (i) to (v)),
    done by the inference pass, which is not part of the sources at hand.
    The result lists the argument expressions in parameter order. *)
Definition match_arguments (params : list parameter) (args : list argument)
  : result rejection (list E) :=
  if positional_after_keyword false args then Raise PositionalAfterKeyword
  else
    r <- fill_positional params args ;;
    assigned <- fill_keywords params (snd r) (fst r) ;;
    in_parameter_order params assigned.

(** Modelled from the spec: the lowering of a call (section 4.4), which
    applies the callee to the matched arguments in parameter order; no
    output is produced when the matching is rejected. *)
Definition compile_call (emit : list E -> IR) (params : list parameter)
    (args : list argument) : result rejection IR :=
  es <- match_arguments params args ;; Ok (emit es).

(** Some positional argument stands after some keyword argument. *)
Definition has_positional_after_keyword (args : list argument) : Prop :=
  exists pre name v mid e post,
    args = pre ++ Keyword name v :: mid ++ Positional e :: post.

(** *** Properties *)

Lemma positional_after_keyword_seen mid e post :
  positional_after_keyword true (mid ++ Positional e :: post) = true.
Proof.
  induction mid as [|[e'|n' e'] mid IH]; simpl; auto.
Qed.

Lemma positional_after_keyword_complete seen args :
  has_positional_after_keyword args ->
  positional_after_keyword seen args = true.
Proof.
  intros (pre & name & v & mid & e & post & ->). revert seen.
  induction pre as [|[e'|n' e'] pre IH]; intros seen; simpl.
  - apply positional_after_keyword_seen.
  - rewrite IH. apply orb_true_r.
  - apply IH.
Qed.

(** C8. A call in which a positional argument stands after a keyword
    argument is rejected when its arguments are matched, whatever the
    parameters of the callee are, and no IR is produced for it. *)
Theorem positional_after_keyword_rejected
    (emit : list E -> IR) (params : list parameter) (args : list argument) :
  has_positional_after_keyword args ->
  match_arguments params args = Raise PositionalAfterKeyword /\
  compile_call emit params args = Raise PositionalAfterKeyword /\
  forall ir, compile_call emit params args <> Ok ir.
Proof.
  intros H. unfold compile_call, match_arguments.
  rewrite (positional_after_keyword_complete false args H). simpl.
  repeat split. discriminate.
Qed.
End Calls.

(** The call [simple_example(x=a, y=b, c)] of [test_arg_after_keyword_failure]. *)
Lemma positional_after_keyword_rejected_witness :
  let params := [ {| param_name := "x"; param_default := None |};
                  {| param_name := "y"; param_default := None |};
                  {| param_name := "z"; param_default := @None string |} ] in
  let args := [Keyword "x" "a"; Keyword "y" "b"; Positional "c"] in
  has_positional_after_keyword args /\
  compile_call (fun es => es) params args = Raise PositionalAfterKeyword.
Proof.
  intros params args.
  assert (H : has_positional_after_keyword args).
  { exists [], "x", "a", [Keyword "y" "b"], "c", []. reflexivity. }
  split; [exact H|].
  exact (proj1 (proj2 (positional_after_keyword_rejected (fun es => es) params args H))).
Defined.

(** The calls of [test_mixture_args_and_keywords] and [test_default] are
    matched. *)
Example match_arguments_mixture :
  match_arguments
    [ {| param_name := "x"; param_default := None |};
      {| param_name := "y"; param_default := None |};
      {| param_name := "z"; param_default := Some "7" |} ]
    [Positional "a"; Keyword "y" "b"]
  = Ok ["a"; "b"; "7"].
Proof. reflexivity. Qed.

End Keywords.

(** ** The constant-folding pass *)

Module ConstFolding.

(** *** Python objects and the AST *)

(** The objects that [exec] and [eval] handle.  [PyBuiltin] is
    a member of [SAFE_GLOBALS_LIST], [PyErr] the local function [err] of
    [non_overwritten_globals], [PyObject] any other object (a function, a
    class, a module, a float, a range, ...). *)
Inductive pyobj :=
| PyInt (z : Z)
| PyStr (s : string)
| PyBytes (b : list Byte.byte)
| PyNone
| PyBool (b : bool)
| PyList (xs : list pyobj)
| PyDict (items : list (pyobj * pyobj))
| PyTuple (xs : list pyobj)
| PyBuiltin (name : string)
| PyErr
| PyObject (repr : string).

(** The classes that [generic_visit] tests the evaluated object against. *)
Inductive pytype := t_int | t_str | t_bytes | t_NoneType | t_bool | t_list | t_dict.

(** [isinstance(v, t)]; [bool] is a subclass of [int]. *)
Definition isinstance (v : pyobj) (t : pytype) : bool :=
  match v, t with
  | PyInt _, t_int => true
  | PyBool _, t_int => true
  | PyBool _, t_bool => true
  | PyStr _, t_str => true
  | PyBytes _, t_bytes => true
  | PyNone, t_NoneType => true
  | PyList _, t_list => true
  | PyDict _, t_dict => true
  | _, _ => false
  end.

Definition ACCEPTED_ATOMIC_TYPES : list pytype :=
  [t_int; t_str; t_bytes; t_NoneType; t_bool].

(** The attributes [lineno], [col_offset], [end_lineno], [end_col_offset]
    of a node. *)
Record span := {
  lineno : Z;
  col_offset : Z;
  end_lineno : Z;
  end_col_offset : Z
}.

Inductive expr_context := Load | Store | Del.

Inductive operator := Add | Sub | Mult | FloorDiv | Mod.

(** The expression nodes of [ast] that the embedding covers. *)
Inductive expr :=
| Constant (loc : span) (value : pyobj)
| Name (loc : span) (id : string) (ctx : expr_context)
| BinOp (loc : span) (left : expr) (op : operator) (right : expr)
| Call (loc : span) (func : expr) (args : list expr) (keywords : list (string * expr))
| Attribute (loc : span) (value : expr) (attr : string) (ctx : expr_context)
| Subscript (loc : span) (value : expr) (slice : expr) (ctx : expr_context)
| List (loc : span) (elts : list expr) (ctx : expr_context)
| Tuple (loc : span) (elts : list expr) (ctx : expr_context).

Record arg := { arg_name : string; annotation : option expr }.

Record arguments := { args_ : list arg; defaults : list expr }.

Record alias := { name : string; asname : option string }.

(** The statement nodes of [ast] that the embedding covers. *)
Inductive stmt :=
| FunctionDef (loc : span) (name : string) (args : arguments)
    (body : list stmt) (returns : option expr)
| ClassDef (loc : span) (name : string) (bases : list expr) (body : list stmt)
| Return (loc : span) (value : option expr)
| Assign (loc : span) (targets : list expr) (value : expr)
| AnnAssign (loc : span) (target : expr) (annotation : expr) (value : option expr)
| For (loc : span) (target : expr) (iter : expr) (body orelse : list stmt)
| While (loc : span) (test : expr) (body orelse : list stmt)
| If (loc : span) (test : expr) (body orelse : list stmt)
| Assert (loc : span) (test : expr) (msg : option expr)
| Import (loc : span) (names : list alias)
| ImportFrom (loc : span) (module : option string) (names : list alias)
| Expr (loc : span) (value : expr)
| Pass (loc : span).

Inductive mod_ := Module (body : list stmt).

(** What [visit] can be called on, and hence what a [CompilerError] of the
    pass can carry: a node, or [None] where an optional child is absent. *)
Inductive node :=
| NodeMod (m : mod_)
| NodeStmt (s : stmt)
| NodeExpr (e : expr)
| NodeNone.

Definition error := exn node.

Definition loc_of (e : expr) : span :=
  match e with
  | Constant loc _ | Name loc _ _ | BinOp loc _ _ _ | Call loc _ _ _
  | Attribute loc _ _ _ | Subscript loc _ _ _ | List loc _ _ | Tuple loc _ _ => loc
  end.

(** [isinstance(node, Constant)] *)
Definition is_Constant (e : expr) : bool :=
  match e with
  | Constant _ _ => true
  | _ => false
  end.

(** *** The table of safe globals *)

(** The [__name__] of each member of [SAFE_GLOBALS_LIST], in order. *)
Definition SAFE_GLOBALS_LIST : list string :=
  [ "abs"; "all"; "any"; "ascii"; "bin"; "bool"; "bytes"; "bytearray";
    "callable"; "chr"; "classmethod"; "compile"; "complex"; "delattr";
    "dict"; "dir"; "divmod"; "enumerate"; "filter"; "float"; "format";
    "frozenset"; "getattr"; "hasattr"; "hash"; "hex"; "id"; "input"; "int";
    "isinstance"; "issubclass"; "iter"; "len"; "list"; "map"; "max"; "min";
    "next"; "object"; "oct"; "open"; "ord"; "pow"; "print"; "property";
    "range"; "repr"; "reversed"; "round"; "set"; "setattr"; "slice";
    "sorted"; "staticmethod"; "str"; "sum"; "super"; "tuple"; "type";
    "vars"; "zip" ].

(** [{x.__name__: x for x in SAFE_GLOBALS_LIST}] *)
Definition SAFE_GLOBALS : gmap string pyobj :=
  list_to_map (map (fun x => (x, PyBuiltin x)) SAFE_GLOBALS_LIST).

(** *** Names written: the two collectors *)

(** [ast.NodeVisitor] on an expression when the visitor defines [visit_Name]
    and no other method for expressions: every [Name] node met is handed to
    [visit_Name]. *)
Fixpoint visit_names {S : Type} (visit_Name : string -> expr_context -> S -> S)
    (e : expr) (s : S) : S :=
  let visit_list :=
    fix visit_list (es : list expr) (s : S) : S :=
      match es with
      | [] => s
      | e' :: es' => visit_list es' (visit_names visit_Name e' s)
      end in
  match e with
  | Constant _ _ => s
  | Name _ id ctx => visit_Name id ctx s
  | BinOp _ l _ r => visit_names visit_Name r (visit_names visit_Name l s)
  | Call _ f args kws =>
      (fix visit_keywords (ks : list (string * expr)) (s : S) : S :=
         match ks with
         | [] => s
         | (_, v) :: ks' => visit_keywords ks' (visit_names visit_Name v s)
         end) kws (visit_list args (visit_names visit_Name f s))
  | Attribute _ v _ _ => visit_names visit_Name v s
  | Subscript _ v sl _ => visit_names visit_Name sl (visit_names visit_Name v s)
  | List _ elts _ => visit_list elts s
  | Tuple _ elts _ => visit_list elts s
  end.

Definition visit_names_opt {S : Type} (visit_Name : string -> expr_context -> S -> S)
    (e : option expr) (s : S) : S :=
  match e with
  | Some e' => visit_names visit_Name e' s
  | None => s
  end.

Definition visit_names_list {S : Type} (visit_Name : string -> expr_context -> S -> S)
    (es : list expr) (s : S) : S :=
  fold_left (fun s e => visit_names visit_Name e s) es s.

(** [generic_visit] of an [arguments] node: the annotations of the
    parameters, then the defaults. *)
Definition visit_names_arguments {S : Type}
    (visit_Name : string -> expr_context -> S -> S) (a : arguments) (s : S) : S :=
  visit_names_list visit_Name (defaults a)
    (fold_left (fun s x => visit_names_opt visit_Name (annotation x) s) (args_ a) s).

Section StatementVisitor.
Context {S : Type}.
Variable visit_stmt : stmt -> S -> S.

(** A list of statements visited in order. *)
Definition visit_body (ss : list stmt) (s : S) : S :=
  fold_left (fun s x => visit_stmt x s) ss s.
End StatementVisitor.

(** [ShallowNameDefCollector.visit_Name] *)
Definition ShallowNameDefCollector_visit_Name
    (id : string) (ctx : expr_context) (vars : gset string) : gset string :=
  match ctx with
  | Store => {[ id ]} ∪ vars
  | _ => vars
  end.

(** [ShallowNameDefCollector.visit] on a statement: function and class
    definitions contribute their name only, every other statement is
    traversed by [generic_visit]. *)
Fixpoint ShallowNameDefCollector_visit (s : stmt) (vars : gset string)
  : gset string :=
  let names := visit_names ShallowNameDefCollector_visit_Name in
  let names_opt := visit_names_opt ShallowNameDefCollector_visit_Name in
  let body :=
    fix body (ss : list stmt) (vars : gset string) : gset string :=
      match ss with
      | [] => vars
      | x :: ss' => body ss' (ShallowNameDefCollector_visit x vars)
      end in
  match s with
  | FunctionDef _ name _ _ _ => {[ name ]} ∪ vars
  | ClassDef _ name _ _ => {[ name ]} ∪ vars
  | Return _ v => names_opt v vars
  | Assign _ targets v =>
      names v (visit_names_list ShallowNameDefCollector_visit_Name targets vars)
  | AnnAssign _ target ann v => names_opt v (names ann (names target vars))
  | For _ target iter b orelse => body orelse (body b (names iter (names target vars)))
  | While _ test b orelse => body orelse (body b (names test vars))
  | If _ test b orelse => body orelse (body b (names test vars))
  | Assert _ test msg => names_opt msg (names test vars)
  | Import _ _ => vars
  | ImportFrom _ _ _ => vars
  | Expr _ v => names v vars
  | Pass _ => vars
  end.

(** [self.vars[name] += 1] on a [defaultdict(int)] *)
Definition bump (name : string) (vars : gmap string nat) : gmap string nat :=
  <[ name := S (default 0%nat (vars !! name)) ]> vars.

(** [DefinedTimesVisitor.visit_Name] *)
Definition DefinedTimesVisitor_visit_Name
    (id : string) (ctx : expr_context) (vars : gmap string nat) : gmap string nat :=
  match ctx with
  | Store => bump id vars
  | _ => vars
  end.

(** [DefinedTimesVisitor.visit] on a statement.  [visit_For] and [visit_If]
    return at once; [visit_FunctionDef] counts the name and traverses the
    arguments twice and the rest of the definition once. *)
Fixpoint DefinedTimesVisitor_visit (s : stmt) (vars : gmap string nat)
  : gmap string nat :=
  let names := visit_names DefinedTimesVisitor_visit_Name in
  let names_opt := visit_names_opt DefinedTimesVisitor_visit_Name in
  let body :=
    fix body (ss : list stmt) (vars : gmap string nat) : gmap string nat :=
      match ss with
      | [] => vars
      | x :: ss' => body ss' (DefinedTimesVisitor_visit x vars)
      end in
  match s with
  | FunctionDef _ name args b returns =>
      let vars := bump name vars in
      let vars := visit_names_arguments DefinedTimesVisitor_visit_Name args vars in
      let vars := visit_names_arguments DefinedTimesVisitor_visit_Name args vars in
      names_opt returns (body b vars)
  | ClassDef _ name _ _ => bump name vars
  | Return _ v => names_opt v vars
  | Assign _ targets v =>
      names v (visit_names_list DefinedTimesVisitor_visit_Name targets vars)
  | AnnAssign _ target ann v => names_opt v (names ann (names target vars))
  | For _ _ _ _ _ => vars
  | While _ test b orelse => body orelse (body b (names test vars))
  | If _ _ _ _ => vars
  | Assert _ test msg => names_opt msg (names test vars)
  | Import _ _ => vars
  | ImportFrom _ _ _ => vars
  | Expr _ v => names v vars
  | Pass _ => vars
  end.

(** The collectors run on the module: [generic_visit] visits its body. *)
Definition ShallowNameDefCollector_vars (m : mod_) : gset string :=
  match m with
  | Module body => fold_left (fun vars s => ShallowNameDefCollector_visit s vars) body ∅
  end.

Definition DefinedTimesVisitor_vars (m : mod_) : gmap string nat :=
  match m with
  | Module body => fold_left (fun vars s => DefinedTimesVisitor_visit s vars) body ∅
  end.

(** [{c for c, i in constants.items() if i == 1}] *)
Definition single_assignment_set (vars : gmap string nat) : gset string :=
  dom (filter (fun ci => snd ci = 1%nat) vars).

(** *** The state of [OptimizeConstantFolding] *)

(** The two scope stacks are kept with the innermost scope first: the head
    of each list is Python's [[-1]]. *)
Record state := {
  scopes_visible : list (gset string);
  scopes_constants : list (gmap string pyobj);
  constants : gset string
}.

(** A method of the pass: it reads and updates the state of the object and
    returns or raises. *)
Definition M (A : Type) : Type := state -> result error A * state.

Definition ret {A} (a : A) : M A := fun st => (Ok a, st).

Definition raise {A} (cls : exc_class) (msg : string) : M A :=
  fun st => (Raise (PyError cls msg), st).

Definition bind {A B} (c : M A) (k : A -> M B) : M B :=
  fun st =>
    match c st with
    | (Ok a, st') => k a st'
    | (Raise e, st') => (Raise e, st')
    end.

Notation "x <~ c ;; k" := (bind c (fun x => k))
  (at level 100, c at next level, right associativity).

Definition get : M state := fun st => (Ok st, st).

Definition step : string := "Constant folding".

(** [CompilingNodeTransformer.visit] around the method [c] chosen for the
    node [n]. *)
Definition visit_wrapped {A} (n : node) (c : M A) : M A :=
  fun st => let (r, st') := c st in (Diagnostics.wrap step n r, st').

Definition enter_scope : M unit :=
  fun st =>
    (Ok tt, {| scopes_visible := ∅ :: scopes_visible st;
               scopes_constants := ∅ :: scopes_constants st;
               constants := constants st |}).

Definition add_vars_visible (vars : gset string) : M unit :=
  fun st =>
    match scopes_visible st with
    | [] => (Raise (PyError IndexError "list index out of range"), st)
    | s :: rest =>
        (Ok tt, {| scopes_visible := (s ∪ vars) :: rest;
                   scopes_constants := scopes_constants st;
                   constants := constants st |})
    end.

Definition add_var_visible (var : string) : M unit :=
  add_vars_visible {[ var ]}.

Definition add_constant (var : string) (value : pyobj) : M unit :=
  fun st =>
    match scopes_constants st with
    | [] => (Raise (PyError IndexError "list index out of range"), st)
    | s :: rest =>
        (Ok tt, {| scopes_visible := scopes_visible st;
                   scopes_constants := <[ var := value ]> s :: rest;
                   constants := constants st |})
    end.

(** [self.scopes_constants[-1].update(new_l)] *)
Definition update_constants (new_l : gmap string pyobj) : M unit :=
  fun st =>
    match scopes_constants st with
    | [] => (Raise (PyError IndexError "list index out of range"), st)
    | s :: rest =>
        (Ok tt, {| scopes_visible := scopes_visible st;
                   scopes_constants := (new_l ∪ s) :: rest;
                   constants := constants st |})
    end.

Definition visible_vars (st : state) : gset string :=
  ⋃ scopes_visible st.

(** The scopes are merged from the outermost to the innermost, so an inner
    binding overrides an outer one. *)
Definition constant_vars (st : state) : gmap string pyobj :=
  ⋃ scopes_constants st.

Definition exit_scope : M unit :=
  fun st =>
    match scopes_visible st, scopes_constants st with
    | _ :: vis, _ :: cs =>
        (Ok tt, {| scopes_visible := vis; scopes_constants := cs;
                   constants := constants st |})
    | _, _ => (Raise (PyError IndexError "pop from empty list"), st)
    end.

Definition non_overwritten_globals (st : state) : gmap string pyobj :=
  map_imap
    (fun k v => Some (if decide (k ∈ visible_vars st) then PyErr else v))
    SAFE_GLOBALS.

(** [self.constants = ...] *)
Definition set_constants (cs : gset string) : M unit :=
  fun st =>
    (Ok tt, {| scopes_visible := scopes_visible st;
               scopes_constants := scopes_constants st;
               constants := cs |}).

(** [d[k]] on a dictionary of globals or locals *)
Definition lookup_or_KeyError (k : string) (d : gmap string pyobj) : M pyobj :=
  match d !! k with
  | Some v => ret v
  | None => raise KeyError k
  end.

(** A plain exception raised inside [exec] or [eval]. *)
Definition host_error : Type := exc_class * string.

Definition reraise {A} (e : host_error) : M A := raise (fst e) (snd e).

(** [n in self.constants] for a node [n] of class [alias]: the set holds
    strings, and an [alias] node is equal to none of them. *)
Definition alias_in_constants (n : alias) (cs : gset string) : bool := false.

(** *** The transformer *)

Section Pass.
(** The names bound in [INITIAL_SCOPE] of [type_inference], which is not
    part of the sources at hand. *)
Variable INITIAL_SCOPE : gset string.

(** The host operations: [unparse] of a node, and [eval] and [exec] of a
    source text with a dictionary of globals and one of locals.  [exec]
    returns both dictionaries as it leaves them. *)
Variable unparse : node -> string.
Variable py_eval :
  string -> gmap string pyobj -> gmap string pyobj -> result host_error pyobj.
Variable py_exec :
  string -> gmap string pyobj -> gmap string pyobj ->
  result host_error (gmap string pyobj * gmap string pyobj).

(** [OptimizeConstantFolding.__init__] *)
Definition init : state :=
  {| scopes_visible := [INITIAL_SCOPE ∖ dom SAFE_GLOBALS];
     scopes_constants := [∅];
     constants := ∅ |}.

(** [copy_location(new_node, node)] for a new [Constant]. *)
Definition copy_location (value : pyobj) (old : expr) : expr :=
  Constant (loc_of old) value.

(** The part of [generic_visit] that follows [super().generic_visit(node)]
    for a node of class [expr]. *)
Definition fold_node (st : state) (n : expr) : expr :=
  if is_Constant n then n
  else
    let node_source := unparse (NodeExpr n) in
    if str_contains "print(" node_source then n
    else
      match py_eval node_source (non_overwritten_globals st) (constant_vars st) with
      | Raise _ => n
      | Ok node_eval =>
          if existsb (isinstance node_eval) (ACCEPTED_ATOMIC_TYPES ++ [t_list; t_dict])
          then copy_location node_eval n
          else n
      end.

(** [super().generic_visit(node)] for an expression: every child that is an
    expression is replaced by the result of visiting it.  [visit] is the
    visit of the pass on expressions. *)
Definition visit_children (visit : expr -> expr) (n : expr) : expr :=
  match n with
  | Constant _ _ | Name _ _ _ => n
  | BinOp loc l op r => BinOp loc (visit l) op (visit r)
  | Call loc f args kws =>
      Call loc (visit f) (map visit args)
        (map (fun kw => match kw with (k, v) => (k, visit v) end) kws)
  | Attribute loc v attr ctx => Attribute loc (visit v) attr ctx
  | Subscript loc v sl ctx => Subscript loc (visit v) (visit sl) ctx
  | List loc elts ctx => List loc (map visit elts) ctx
  | Tuple loc elts ctx => Tuple loc (map visit elts) ctx
  end.

(** [visit] on an expression: no method is defined for any class of
    expression, so [generic_visit] runs, and it raises nothing. *)
Fixpoint visit_expr (st : state) (n : expr) {struct n} : expr :=
  fold_node st
    match n with
    | Constant _ _ | Name _ _ _ => n
    | BinOp loc l op r => BinOp loc (visit_expr st l) op (visit_expr st r)
    | Call loc f args kws =>
        Call loc (visit_expr st f) (map (visit_expr st) args)
          (map (fun kw => match kw with (k, v) => (k, visit_expr st v) end) kws)
    | Attribute loc v attr ctx => Attribute loc (visit_expr st v) attr ctx
    | Subscript loc v sl ctx =>
        Subscript loc (visit_expr st v) (visit_expr st sl) ctx
    | List loc elts ctx => List loc (map (visit_expr st) elts) ctx
    | Tuple loc elts ctx => Tuple loc (map (visit_expr st) elts) ctx
    end.

(** [self.visit(node.value)] where the value may be absent: visiting [None]
    fails on its missing [_fields], and the visit of [None] wraps that. *)
Definition visit_value (v : option expr) : M (option expr) :=
  match v with
  | Some e => st <~ get ;; ret (Some (visit_expr st e))
  | None =>
      visit_wrapped NodeNone
        (raise AttributeError "'NoneType' object has no attribute '_fields'")
  end.

Definition visit_arguments (st : state) (a : arguments) : arguments :=
  {| args_ := map (fun x => {| arg_name := arg_name x;
                               annotation := option_map (visit_expr st) (annotation x) |})
                  (args_ a);
     defaults := map (visit_expr st) (defaults a) |}.

(** The target is a [Name]: its identifier. *)
Definition target_id (target : expr) : option string :=
  match target with
  | Name _ id _ => Some id
  | _ => None
  end.

Definition visit_ClassDef (n : stmt) (name : string) : M (option stmt) :=
  st <~ get ;;
  _ <~ (if decide (name ∈ constants st) then
          let g := non_overwritten_globals st in
          let l := constant_vars st in
          match py_exec (unparse (NodeStmt n)) g l with
          | Raise e => reraise e
          | Ok (_, l') => v <~ lookup_or_KeyError name l' ;; add_constant name v
          end
        else ret tt) ;;
  ret (Some n).

Definition visit_Import (n : stmt) (names : list alias) : M (option stmt) :=
  st <~ get ;;
  _ <~ (if forallb (fun a => alias_in_constants a (constants st)) names then
          let g := non_overwritten_globals st in
          let l := constant_vars st in
          let g := l ∪ g in
          match py_exec (unparse (NodeStmt n)) g ∅ with
          | Raise _ => ret tt
          | Ok (_, new_l) => update_constants new_l
          end
        else ret tt) ;;
  ret None.

Definition visit_Assign (n : stmt) (loc : span) (targets : list expr) (value : expr)
  : M (option stmt) :=
  match targets with
  | [target] =>
      match target_id target with
      | None => ret (Some n)
      | Some id =>
          st <~ get ;;
          _ <~ (if decide (id ∈ constants st) then
                  let g := non_overwritten_globals st in
                  let l := constant_vars st in
                  match py_exec (unparse (NodeStmt n)) g l with
                  | Raise _ => ret tt
                  | Ok (_, l') => v <~ lookup_or_KeyError id l' ;; add_constant id v
                  end
                else ret tt) ;;
          st <~ get ;;
          ret (Some (Assign loc targets (visit_expr st value)))
      end
  | _ => ret (Some n)
  end.

Definition visit_AnnAssign (n : stmt) (loc : span) (target ann : expr)
    (value : option expr) : M (option stmt) :=
  match target_id target with
  | None => ret (Some n)
  | Some id =>
      st <~ get ;;
      _ <~ (if decide (id ∈ constants st) then
              let g := non_overwritten_globals st in
              match py_exec (unparse (NodeStmt n)) g (constant_vars st) with
              | Raise e => reraise e
              | Ok (g', _) => v <~ lookup_or_KeyError id g' ;; add_constant id v
              end
            else ret tt) ;;
      value' <~ visit_value value ;;
      ret (Some (AnnAssign loc target ann value'))
  end.

(** The statements of a list field are visited in order; a statement whose
    visit returns [None] is left out of the new list. *)
Definition visit_list (visit : stmt -> M (option stmt)) : list stmt -> M (list stmt) :=
  fix visit_list (ss : list stmt) : M (list stmt) :=
    match ss with
    | [] => ret []
    | s :: ss' =>
        fun st =>
          match visit s st with
          | (Raise e, st1) => (Raise e, st1)
          | (Ok r, st1) =>
              match visit_list ss' st1 with
              | (Raise e, st2) => (Raise e, st2)
              | (Ok rs, st2) =>
                  (Ok match r with
                      | Some s' => s' :: rs
                      | None => rs
                      end, st2)
              end
          end
    end.

Definition visit_FunctionDef (visit_body : list stmt -> M (list stmt))
    (n : stmt) (loc : span) (name : string) (args : arguments)
    (body : list stmt) (returns : option expr) : M (option stmt) :=
  _ <~ add_var_visible name ;;
  _ <~ enter_scope ;;
  _ <~ add_vars_visible (list_to_set (map arg_name (args_ args))) ;;
  let def_vars := fold_left (fun vars s => ShallowNameDefCollector_visit s vars) body ∅ in
  _ <~ add_vars_visible def_vars ;;
  st <~ get ;;
  _ <~ (if decide (name ∈ constants st) then
          let g := non_overwritten_globals st in
          let l := constant_vars st in
          match py_exec (unparse (NodeStmt n)) g l with
          | Raise e => reraise e
          | Ok (_, l') => v <~ lookup_or_KeyError name l' ;; add_constant name v
          end
        else ret tt) ;;
  st <~ get ;;
  let args' := visit_arguments st args in
  body' <~ visit_body body ;;
  st <~ get ;;
  let returns' := option_map (visit_expr st) returns in
  _ <~ exit_scope ;;
  ret (Some (FunctionDef loc name args' body' returns')).

(** [generic_visit] on the statements without a method of their own; the
    fields are visited in the order of [_fields]. *)
Definition generic_visit (visit_body : list stmt -> M (list stmt)) (n : stmt)
  : M (option stmt) :=
  match n with
  | Return loc v =>
      st <~ get ;; ret (Some (Return loc (option_map (visit_expr st) v)))
  | For loc target iter body orelse =>
      st <~ get ;;
      let target' := visit_expr st target in
      let iter' := visit_expr st iter in
      body' <~ visit_body body ;;
      orelse' <~ visit_body orelse ;;
      ret (Some (For loc target' iter' body' orelse'))
  | While loc test body orelse =>
      st <~ get ;;
      let test' := visit_expr st test in
      body' <~ visit_body body ;;
      orelse' <~ visit_body orelse ;;
      ret (Some (While loc test' body' orelse'))
  | If loc test body orelse =>
      st <~ get ;;
      let test' := visit_expr st test in
      body' <~ visit_body body ;;
      orelse' <~ visit_body orelse ;;
      ret (Some (If loc test' body' orelse'))
  | Assert loc test msg =>
      st <~ get ;;
      ret (Some (Assert loc (visit_expr st test) (option_map (visit_expr st) msg)))
  | Expr loc v => st <~ get ;; ret (Some (Expr loc (visit_expr st v)))
  | _ => ret (Some n)
  end.

(** [visit] on a statement: the method of its class, or [generic_visit],
    inside the wrapper of [CompilingNodeTransformer]. *)
Fixpoint visit_stmt (n : stmt) {struct n} : M (option stmt) :=
  visit_wrapped (NodeStmt n)
    match n with
    | FunctionDef loc name args body returns =>
        visit_FunctionDef (visit_list visit_stmt) n loc name args body returns
    | ClassDef _ name _ _ => visit_ClassDef n name
    | Import _ names => visit_Import n names
    | Assign loc targets value => visit_Assign n loc targets value
    | AnnAssign loc target ann value => visit_AnnAssign n loc target ann value
    | _ => generic_visit (visit_list visit_stmt) n
    end.

Definition visit_body_stmts : list stmt -> M (list stmt) := visit_list visit_stmt.

(** [visit] on the module, i.e. [visit_Module] inside the wrapper. *)
Definition visit_Module (m : mod_) : M mod_ :=
  visit_wrapped (NodeMod m)
    (_ <~ enter_scope ;;
     _ <~ add_vars_visible (ShallowNameDefCollector_vars m) ;;
     _ <~ set_constants (single_assignment_set (DefinedTimesVisitor_vars m)) ;;
     body' <~ visit_body_stmts (match m with Module body => body end) ;;
     _ <~ exit_scope ;;
     ret (Module body')).

(** *** Properties of the table of safe globals *)

Lemma SAFE_GLOBALS_lookup (k : string) (v : pyobj) :
  SAFE_GLOBALS !! k = Some v -> v = PyBuiltin k /\ k ∈ SAFE_GLOBALS_LIST.
Proof.
  unfold SAFE_GLOBALS. generalize SAFE_GLOBALS_LIST. intros l H.
  apply elem_of_list_to_map_2 in H.
  apply list_elem_of_In, in_map_iff in H. destruct H as (x & [= <- <-] & Hx).
  split; [reflexivity|]. now apply list_elem_of_In.
Qed.

(** Before any scope is entered no safe name counts as overwritten: the
    evaluation receives the whole table. *)
Lemma non_overwritten_globals_init :
  non_overwritten_globals init = SAFE_GLOBALS.
Proof.
  apply map_eq. intros k.
  unfold non_overwritten_globals, visible_vars, init. cbn [scopes_visible].
  rewrite map_lookup_imap. generalize SAFE_GLOBALS. intros G.
  destruct (G !! k) as [v|] eqn:Hk; [|reflexivity]. cbn [mbind option_bind].
  destruct (decide (k ∈ ⋃ [INITIAL_SCOPE ∖ dom G])) as [Hin|]; [|reflexivity].
  exfalso. assert (Hd : k ∈ dom G) by (apply elem_of_dom; eauto).
  apply elem_of_union_list in Hin. destruct Hin as (X & HX & HkX).
  apply list_elem_of_singleton in HX. subst X.
  apply elem_of_difference in HkX. tauto.
Qed.

(** C1. The table of safe globals binds the names [open] and [input] to the
    built-ins of the host, and the dictionary of globals that the pass
    hands to [exec] and [eval] in its initial state exposes both. *)
Theorem safe_globals_expose_open_and_input :
  "open" ∈ SAFE_GLOBALS_LIST /\
  "input" ∈ SAFE_GLOBALS_LIST /\
  non_overwritten_globals init !! "open" = Some (PyBuiltin "open") /\
  non_overwritten_globals init !! "input" = Some (PyBuiltin "input").
Proof.
  rewrite non_overwritten_globals_init.
  assert (Ho : SAFE_GLOBALS !! "open" = Some (PyBuiltin "open")) by reflexivity.
  assert (Hi : SAFE_GLOBALS !! "input" = Some (PyBuiltin "input")) by reflexivity.
  split; [exact (proj2 (SAFE_GLOBALS_lookup _ _ Ho))|].
  split; [exact (proj2 (SAFE_GLOBALS_lookup _ _ Hi))|].
  split; assumption.
Qed.

(** *** Properties of the folding of expressions *)

(** The classes that [generic_visit] accepts, spelled out: an instance of
    [int], [str], [bytes], [NoneType], [bool], [list] or [dict], whatever a
    list or a dictionary holds. *)
Definition accepted_class (v : pyobj) : Prop :=
  match v with
  | PyInt _ | PyStr _ | PyBytes _ | PyNone | PyBool _ | PyList _ | PyDict _ => True
  | _ => False
  end.

(** The reading of the spec: a value of an accepted atomic type, or a
    container whose items are, down to any depth, such values. *)
Fixpoint container_of_accepted (v : pyobj) : bool :=
  match v with
  | PyInt _ | PyStr _ | PyBytes _ | PyNone | PyBool _ => true
  | PyList xs | PyTuple xs => forallb container_of_accepted xs
  | PyDict items =>
      forallb (fun kv => match kv with
                         | (k, x) => container_of_accepted k && container_of_accepted x
                         end) items
  | _ => false
  end.

Lemma accepted_class_spec (v : pyobj) :
  existsb (isinstance v) (ACCEPTED_ATOMIC_TYPES ++ [t_list; t_dict]) = true
  <-> accepted_class v.
Proof.
  destruct v; simpl; split; intros H; try reflexivity; try exact I;
    try discriminate; try contradiction.
Qed.

Lemma visit_expr_unfold (st : state) (n : expr) :
  visit_expr st n = fold_node st (visit_children (visit_expr st) n).
Proof. destruct n; reflexivity. Qed.

(** Visiting the children changes neither the class nor the span of the
    node. *)
Lemma visit_children_head (visit : expr -> expr) (n : expr) :
  is_Constant (visit_children visit n) = is_Constant n /\
  loc_of (visit_children visit n) = loc_of n.
Proof. destruct n; split; reflexivity. Qed.

(** C5 (amended). Let [n'] be the visited expression once its children
    have been visited.  The visit returns a constant in place of a node
    that is not one exactly when the text of [n'] does not contain
    [print(], its evaluation succeeds and the value is an instance
    of [int], [str], [bytes], [NoneType], [bool], [list] or [dict]; the
    constant then carries that value and the span of the node.  In every
    other case the visit returns [n'] itself. *)
Theorem generic_visit_replaces_exactly (st : state) (n : expr) :
  let n' := visit_children (visit_expr st) n in
  let source := unparse (NodeExpr n') in
  let evaluated :=
    py_eval source (non_overwritten_globals st) (constant_vars st) in
  (forall v,
     is_Constant n = false /\ visit_expr st n = Constant (loc_of n) v
     <->
     is_Constant n = false /\
     str_contains "print(" source = false /\
     evaluated = Ok v /\
     accepted_class v) /\
  ((forall v,
      ~ (is_Constant n = false /\
         str_contains "print(" source = false /\
         evaluated = Ok v /\
         accepted_class v)) ->
   visit_expr st n = n').
Proof.
  intros n' source evaluated.
  destruct (visit_children_head (visit_expr st) n) as [Hc Hl].
  fold n' in Hc, Hl.
  rewrite visit_expr_unfold. fold n'. unfold fold_node.
  fold source. fold evaluated. rewrite Hc.
  destruct (is_Constant n) eqn:Hn.
  { split; [|reflexivity]. intros v. split; intros [? _]; discriminate. }
  destruct (str_contains "print(" source) eqn:Hp.
  { split; [|reflexivity]. intros v. split.
    - intros [_ H]. rewrite H in Hc. discriminate.
    - intros (_ & ? & _). discriminate. }
  destruct evaluated as [v0|e] eqn:He.
  2:{ split; [|reflexivity]. intros v. split.
      - intros [_ H]. rewrite H in Hc. discriminate.
      - intros (_ & _ & ? & _). discriminate. }
  destruct (existsb (isinstance v0) (ACCEPTED_ATOMIC_TYPES ++ [t_list; t_dict]))
    eqn:Ha.
  - apply accepted_class_spec in Ha. unfold copy_location. rewrite Hl. split.
    + intros v. split.
      * intros [_ [= <-]]. auto.
      * intros (_ & _ & [= <-] & _). auto.
    + intros Hnone. exfalso. apply (Hnone v0). auto.
  - split; [|reflexivity]. intros v. split.
    + intros [_ H]. rewrite H in Hc. discriminate.
    + intros (_ & _ & [= <-] & Hv). apply accepted_class_spec in Hv. congruence.
Qed.

(** *** Properties of the visit of statements *)

Ltac run_pass :=
  unfold visit_Import, visit_Assign, visit_AnnAssign, visit_ClassDef,
    visit_FunctionDef, visit_value, visit_wrapped, lookup_or_KeyError,
    update_constants, add_constant, add_var_visible, add_vars_visible,
    enter_scope, exit_scope, reraise, raise, bind, get, ret; simpl.



(** C3. The evaluation of an annotated assignment and of a function
    definition is not guarded: when [exec] raises on a statement of one of
    these two classes whose name is in the single-assignment set, the
    exception leaves the visit, wrapped into a [CompilerError] for that
    statement. *)
Theorem exec_failure_escapes (st : state) (e : host_error) :
  (forall loc tloc id ctx ann value,
     let n := AnnAssign loc (Name tloc id ctx) ann value in
     id ∈ constants st ->
     py_exec (unparse (NodeStmt n)) (non_overwritten_globals st) (constant_vars st)
       = Raise e ->
     visit_stmt n st
       = (Raise (CompilerError (PyError (fst e) (snd e)) (NodeStmt n) step), st)) /\
  (forall loc name args body returns,
     let n := FunctionDef loc name args body returns in
     name ∈ constants st ->
     scopes_visible st <> [] ->
     (forall g l, py_exec (unparse (NodeStmt n)) g l = Raise e) ->
     exists st',
       visit_stmt n st
         = (Raise (CompilerError (PyError (fst e) (snd e)) (NodeStmt n) step), st')).
Proof.
  split.
  - intros loc tloc id ctx ann value n Hin Hexec. simpl. run_pass.
    destruct (decide (id ∈ constants st)); [|contradiction].
    fold n. rewrite Hexec. reflexivity.
  - intros loc name args body returns n Hin Hvis Hexec. simpl. run_pass.
    destruct (scopes_visible st) as [|s rest] eqn:Hs; [contradiction|]. simpl.
    destruct (decide (name ∈ constants st)); [|contradiction].
    fold n. rewrite Hexec. simpl. eexists. reflexivity.
Qed.

(** An [Import] statement stands at a place the pass visits, that is
    anywhere but inside the body of a class. *)
Fixpoint imports_outside_classes (n : stmt) : bool :=
  match n with
  | Import _ _ => true
  | FunctionDef _ _ _ body _ => existsb imports_outside_classes body
  | For _ _ _ body orelse | While _ _ body orelse | If _ _ body orelse =>
      existsb imports_outside_classes body || existsb imports_outside_classes orelse
  | _ => false
  end.

(** An [Import] statement stands anywhere in the statement. *)
Fixpoint imports_anywhere (n : stmt) : bool :=
  match n with
  | Import _ _ => true
  | FunctionDef _ _ _ body _ | ClassDef _ _ _ body => existsb imports_anywhere body
  | For _ _ _ body orelse | While _ _ body orelse | If _ _ body orelse =>
      existsb imports_anywhere body || existsb imports_anywhere orelse
  | _ => false
  end.

(** The statements whose visit goes on into lists of statements. *)
Definition is_compound (n : stmt) : bool :=
  match n with
  | FunctionDef _ _ _ _ _ | For _ _ _ _ _ | While _ _ _ _ | If _ _ _ _ => true
  | _ => false
  end.

Lemma stmt_ind_bodies (P : stmt -> Prop) :
  (forall loc name args body returns,
     Forall P body -> P (FunctionDef loc name args body returns)) ->
  (forall loc target iter body orelse,
     Forall P body -> Forall P orelse -> P (For loc target iter body orelse)) ->
  (forall loc test body orelse,
     Forall P body -> Forall P orelse -> P (While loc test body orelse)) ->
  (forall loc test body orelse,
     Forall P body -> Forall P orelse -> P (If loc test body orelse)) ->
  (forall n, is_compound n = false -> P n) ->
  forall n, P n.
Proof.
  intros Hdef Hfor Hwhile Hif Hsimple. fix IH 1.
  assert (Hall : forall ss, Forall P ss).
  { fix IHss 1. intros [|s ss]; constructor; [apply IH | apply IHss]. }
  intros []; try (apply Hsimple; reflexivity).
  - apply Hdef, Hall.
  - apply Hfor; apply Hall.
  - apply Hwhile; apply Hall.
  - apply Hif; apply Hall.
Qed.

Lemma visit_list_cons (visit : stmt -> M (option stmt)) n ss st :
  visit_list visit (n :: ss) st
  = match visit n st with
    | (Raise e, st1) => (Raise e, st1)
    | (Ok r, st1) =>
        match visit_list visit ss st1 with
        | (Raise e, st2) => (Raise e, st2)
        | (Ok rs, st2) =>
            (Ok match r with
                | Some s' => s' :: rs
                | None => rs
                end, st2)
        end
    end.
Proof. reflexivity. Qed.

Lemma visit_list_no_import (ss : list stmt) :
  Forall (fun n => forall st r st',
            visit_stmt n st = (Ok (Some r), st') ->
            imports_outside_classes r = false) ss ->
  forall st ss' st',
    visit_list visit_stmt ss st = (Ok ss', st') ->
    existsb imports_outside_classes ss' = false.
Proof.
  induction 1 as [|n ss Hn _ IH]; intros st ss' st' Hrun.
  - injection Hrun as <- _. reflexivity.
  - rewrite visit_list_cons in Hrun.
    destruct (visit_stmt n st) as [[r|e] st1] eqn:Hv; [|discriminate].
    destruct (visit_list visit_stmt ss st1) as [[rs|e] st2] eqn:Hl; [|discriminate].
    injection Hrun as <- _. specialize (IH _ _ _ Hl).
    destruct r as [s'|]; [|exact IH].
    simpl. rewrite (Hn _ _ _ Hv), IH. reflexivity.
Qed.

Lemma wrap_Ok_inv {A} (n : node) (c : M A) st r st' :
  visit_wrapped n c st = (Ok r, st') -> c st = (Ok r, st').
Proof.
  unfold visit_wrapped. destruct (c st) as [[a|e] st1]; simpl.
  - intros [= <- <-]. reflexivity.
  - destruct (Diagnostics.isinstance_CompilerError e); discriminate.
Qed.

Lemma bind_Ok_inv {A B} (c : M A) (k : A -> M B) st r st' :
  bind c k st = (Ok r, st') ->
  exists a st1, c st = (Ok a, st1) /\ k a st1 = (Ok r, st').
Proof.
  unfold bind. destruct (c st) as [[a|e] st1]; [eauto|discriminate].
Qed.

Ltac bind_inv H :=
  repeat match type of H with
         | bind _ _ _ = (Ok _, _) =>
             let a := fresh "a" in
             let st1 := fresh "st" in
             let H1 := fresh "Hstep" in
             apply bind_Ok_inv in H; destruct H as (a & st1 & H1 & H)
         end.

Ltac bodies_no_import body orelse IHb IHo :=
  repeat match goal with
         | Hl : visit_list visit_stmt body _ = _ |- _ =>
             rewrite (visit_list_no_import body IHb _ _ _ Hl); clear Hl
         | Hl : visit_list visit_stmt orelse _ = _ |- _ =>
             rewrite (visit_list_no_import orelse IHo _ _ _ Hl); clear Hl
         end.

(** No statement that the visit returns holds an [Import] at a place the
    pass visits. *)
Lemma visit_stmt_no_import (n : stmt) :
  forall st r st',
    visit_stmt n st = (Ok (Some r), st') -> imports_outside_classes r = false.
Proof.
  induction n as [loc name args body returns IHb
                 |loc target iter body orelse IHb IHo
                 |loc test body orelse IHb IHo
                 |loc test body orelse IHb IHo
                 |n Hsimple] using stmt_ind_bodies;
    intros st r st' H.
  - simpl in H. apply wrap_Ok_inv in H. unfold visit_FunctionDef in H.
    bind_inv H. injection H as <- _. simpl.
    match goal with
    | Hl : visit_list visit_stmt body _ = _ |- _ =>
        exact (visit_list_no_import body IHb _ _ _ Hl)
    end.
  - simpl in H. apply wrap_Ok_inv in H. unfold generic_visit in H.
    bind_inv H. injection H as <- _. simpl.
    bodies_no_import body orelse IHb IHo. reflexivity.
  - simpl in H. apply wrap_Ok_inv in H. unfold generic_visit in H.
    bind_inv H. injection H as <- _. simpl.
    bodies_no_import body orelse IHb IHo. reflexivity.
  - simpl in H. apply wrap_Ok_inv in H. unfold generic_visit in H.
    bind_inv H. injection H as <- _. simpl.
    bodies_no_import body orelse IHb IHo. reflexivity.
  - destruct n; try discriminate; simpl in H; apply wrap_Ok_inv in H.
    all: try (unfold generic_visit in H; bind_inv H; injection H as <- _; reflexivity).
    + unfold visit_ClassDef in H. bind_inv H. injection H as <- _. reflexivity.
    + unfold visit_Assign in H. destruct targets as [|t [|t2 ts]].
      * injection H as <- _. reflexivity.
      * destruct (target_id t).
        -- bind_inv H. injection H as <- _. reflexivity.
        -- injection H as <- _. reflexivity.
      * injection H as <- _. reflexivity.
    + unfold visit_AnnAssign in H. destruct (target_id target).
      * bind_inv H. injection H as <- _. reflexivity.
      * injection H as <- _. reflexivity.
    + unfold visit_Import in H. bind_inv H. discriminate H.
Qed.

Lemma visit_Import_Ok_None (st : state) (loc : span) (names : list alias) :
  scopes_constants st <> [] ->
  exists st', visit_stmt (Import loc names) st = (Ok None, st').
Proof.
  intros Hopen. simpl. run_pass.
  destruct (forallb (fun a => alias_in_constants a (constants st)) names);
    [|eexists; reflexivity].
  destruct (py_exec _ _ _) as [[g' new_l]|e]; simpl; [|eexists; reflexivity].
  destruct (scopes_constants st) as [|s rest]; [contradiction|].
  eexists. reflexivity.
Qed.

(** C9 (amended). In every state of the pass with a scope open, the visit
    of an [Import] statement raises nothing and returns no node, whether or
    not its names count as constants and whether or not its evaluation
    succeeds, and the list of statements that holds it is rebuilt without
    it.  Hence the module that the pass returns holds no [Import] statement
    outside the bodies of class definitions.  The body of a class
    definition is not visited: the visit returns the class as it is. *)
Theorem visited_imports_are_removed :
  (forall st loc names,
     scopes_constants st <> [] ->
     exists st',
       visit_stmt (Import loc names) st = (Ok None, st') /\
       forall rest,
         visit_body_stmts (Import loc names :: rest) st
         = visit_body_stmts rest st') /\
  (forall body st body' st',
     visit_Module (Module body) st = (Ok (Module body'), st') ->
     existsb imports_outside_classes body' = false) /\
  (forall loc name bases body st r st',
     visit_stmt (ClassDef loc name bases body) st = (Ok r, st') ->
     r = Some (ClassDef loc name bases body)).
Proof.
  split; [|split].
  - intros st loc names Hopen.
    destruct (visit_Import_Ok_None st loc names Hopen) as [st' H].
    exists st'. split; [exact H|].
    intros rest. unfold visit_body_stmts. rewrite !visit_list_cons, H.
    destruct (visit_list visit_stmt rest st') as [[rs|e] st2]; reflexivity.
  - intros body st body' st' H.
    unfold visit_Module in H. apply wrap_Ok_inv in H.
    bind_inv H. injection H as <- _.
    match goal with
    | Hl : visit_body_stmts body _ = _ |- _ =>
        refine (visit_list_no_import body _ _ _ _ Hl)
    end.
    apply Forall_forall. intros n _. apply visit_stmt_no_import.
  - intros loc name bases body st r st' H.
    simpl in H. apply wrap_Ok_inv in H. unfold visit_ClassDef in H.
    bind_inv H. injection H as <- _. reflexivity.
Qed.

(** The exception is plain, or a plain exception wrapped once by the pass. *)
Definition wrapped_once (e : error) : Prop :=
  exists cls msg n, e = CompilerError (PyError cls msg) n step.

Definition plain_or_wrapped_once (e : error) : Prop :=
  (exists cls msg, e = PyError cls msg) \/ wrapped_once e.

Definition raises_only {A} (Q : error -> Prop) (c : M A) : Prop :=
  forall st e st', c st = (Raise e, st') -> Q e.

Lemma raises_only_wrapped {A} (n : node) (c : M A) :
  raises_only plain_or_wrapped_once c ->
  raises_only wrapped_once (visit_wrapped n c).
Proof.
  intros Hc st e st'. unfold visit_wrapped.
  destruct (c st) as [[a|e0] st1] eqn:Hrun; simpl; [discriminate|].
  destruct (Hc _ _ _ Hrun) as [(cls & msg & ->)|(cls & msg & n' & ->)]; simpl;
    intros [= <- _].
  - now exists cls, msg, n.
  - now exists cls, msg, n'.
Qed.

Lemma raises_only_bind {A B} Q (c : M A) (k : A -> M B) :
  raises_only Q c -> (forall a, raises_only Q (k a)) -> raises_only Q (bind c k).
Proof.
  intros Hc Hk st e st'. unfold bind.
  destruct (c st) as [[a|e0] st1] eqn:Hrun.
  - apply Hk.
  - intros [= <- _]. exact (Hc _ _ _ Hrun).
Qed.

Lemma raises_only_weaken {A} (c : M A) :
  raises_only wrapped_once c -> raises_only plain_or_wrapped_once c.
Proof. intros H st e st' Hrun. right. exact (H _ _ _ Hrun). Qed.

Lemma raises_only_ret {A} Q (a : A) : raises_only Q (ret a).
Proof. intros st e st'. discriminate. Qed.

Lemma raises_only_get Q : raises_only Q get.
Proof. intros st e st'. discriminate. Qed.

Lemma raises_only_raise {A} cls msg :
  raises_only plain_or_wrapped_once (@raise A cls msg).
Proof. intros st e st' [= <- _]. left. eauto. Qed.

Lemma raises_only_state_step {A} (c : M A) :
  (forall st, (exists a st', c st = (Ok a, st')) \/
              (exists cls msg, c st = (Raise (PyError cls msg), st))) ->
  raises_only plain_or_wrapped_once c.
Proof.
  intros H st e st' Hrun. destruct (H st) as [(a & st1 & Hok)|(cls & msg & Hr)].
  - congruence.
  - rewrite Hr in Hrun. injection Hrun as <- _. left. eauto.
Qed.

Lemma raises_only_add_vars_visible vars :
  raises_only plain_or_wrapped_once (add_vars_visible vars).
Proof.
  apply raises_only_state_step. intros st. unfold add_vars_visible.
  destruct (scopes_visible st); eauto.
Qed.

Lemma raises_only_add_constant k v :
  raises_only plain_or_wrapped_once (add_constant k v).
Proof.
  apply raises_only_state_step. intros st. unfold add_constant.
  destruct (scopes_constants st); eauto.
Qed.

Lemma raises_only_update_constants l :
  raises_only plain_or_wrapped_once (update_constants l).
Proof.
  apply raises_only_state_step. intros st. unfold update_constants.
  destruct (scopes_constants st); eauto.
Qed.

Lemma raises_only_exit_scope : raises_only plain_or_wrapped_once exit_scope.
Proof.
  apply raises_only_state_step. intros st. unfold exit_scope.
  destruct (scopes_visible st), (scopes_constants st); eauto.
Qed.

Lemma raises_only_enter_scope Q : raises_only Q enter_scope.
Proof. intros st e st'. discriminate. Qed.

Lemma raises_only_set_constants Q cs : raises_only Q (set_constants cs).
Proof. intros st e st'. discriminate. Qed.

Lemma raises_only_lookup k d :
  raises_only plain_or_wrapped_once (lookup_or_KeyError k d).
Proof.
  unfold lookup_or_KeyError. destruct (d !! k).
  - apply raises_only_ret.
  - apply raises_only_raise.
Qed.

Lemma raises_only_visit_value v :
  raises_only plain_or_wrapped_once (visit_value v).
Proof.
  destruct v; simpl.
  - apply raises_only_bind; [apply raises_only_get|intros; apply raises_only_ret].
  - apply raises_only_weaken, raises_only_wrapped, raises_only_raise.
Qed.

(** The steps that a method of the pass is made of. *)
Ltac raises_only_step :=
  first
    [ apply raises_only_ret
    | apply raises_only_get
    | apply raises_only_enter_scope
    | apply raises_only_set_constants
    | apply raises_only_raise
    | apply raises_only_add_vars_visible
    | apply raises_only_add_constant
    | apply raises_only_update_constants
    | apply raises_only_exit_scope
    | apply raises_only_lookup
    | apply raises_only_visit_value
    | apply raises_only_bind; [|intros ?]
    | match goal with
      | |- raises_only _ (if ?b then _ else _) => destruct b
      | |- raises_only _ (match ?x with _ => _ end) => destruct x
      end ].

Lemma raises_only_visit_list (ss : list stmt) :
  Forall (fun n => raises_only wrapped_once (visit_stmt n)) ss ->
  raises_only plain_or_wrapped_once (visit_list visit_stmt ss).
Proof.
  induction 1 as [|n ss Hn _ IH]; intros st e st' Hrun.
  - discriminate.
  - rewrite visit_list_cons in Hrun.
    destruct (visit_stmt n st) as [[r|e0] st1] eqn:Hv.
    + destruct (visit_list visit_stmt ss st1) as [[rs|e1] st2] eqn:Hl;
        [discriminate|].
      injection Hrun as <- _. exact (IH _ _ _ Hl).
    + injection Hrun as <- _. right. exact (Hn _ _ _ Hv).
Qed.

(** Whatever exception leaves the visit of a statement is a plain exception
    wrapped once, with the step name of the pass. *)
Lemma visit_stmt_wraps_once (n : stmt) :
  raises_only wrapped_once (visit_stmt n).
Proof.
  induction n as [loc name args body returns IHb
                 |loc target iter body orelse IHb IHo
                 |loc test body orelse IHb IHo
                 |loc test body orelse IHb IHo
                 |n Hsimple] using stmt_ind_bodies.
  - simpl. apply raises_only_wrapped. unfold visit_FunctionDef, add_var_visible, reraise.
    repeat first [ apply (raises_only_visit_list body IHb) | raises_only_step ].
  - simpl. apply raises_only_wrapped. unfold generic_visit.
    repeat first [ apply (raises_only_visit_list body IHb)
                 | apply (raises_only_visit_list orelse IHo) | raises_only_step ].
  - simpl. apply raises_only_wrapped. unfold generic_visit.
    repeat first [ apply (raises_only_visit_list body IHb)
                 | apply (raises_only_visit_list orelse IHo) | raises_only_step ].
  - simpl. apply raises_only_wrapped. unfold generic_visit.
    repeat first [ apply (raises_only_visit_list body IHb)
                 | apply (raises_only_visit_list orelse IHo) | raises_only_step ].
  - destruct n; try discriminate; simpl; apply raises_only_wrapped;
      unfold generic_visit, visit_ClassDef, visit_Assign, visit_AnnAssign,
        visit_Import, reraise;
      repeat raises_only_step.
Qed.

(** X26. Whatever exception leaves the pass on a module is a plain
    exception wrapped once, with the step name of the pass. *)
Lemma visit_Module_wraps_once (m : mod_) :
  raises_only wrapped_once (visit_Module m).
Proof.
  unfold visit_Module. apply raises_only_wrapped.
  repeat first
    [ apply raises_only_visit_list, Forall_forall; intros n _;
      apply visit_stmt_wraps_once
    | raises_only_step ].
Qed.

(** *** Further properties: the scope stacks *)

(** Between [st] and [st'] only the innermost scope of each stack has
    changed. *)
Definition frame (st st' : state) : Prop :=
  constants st' = constants st /\
  length (scopes_visible st') = length (scopes_visible st) /\
  tail (scopes_visible st') = tail (scopes_visible st) /\
  length (scopes_constants st') = length (scopes_constants st) /\
  tail (scopes_constants st') = tail (scopes_constants st).

Definition keeps_frame {A} (c : M A) : Prop :=
  forall st a st', c st = (Ok a, st') -> frame st st'.

Lemma frame_refl st : frame st st.
Proof. repeat split. Qed.

Lemma frame_trans st1 st2 st3 : frame st1 st2 -> frame st2 st3 -> frame st1 st3.
Proof.
  intros (? & ? & ? & ? & ?) (? & ? & ? & ? & ?). repeat split; congruence.
Qed.

Lemma keeps_frame_ret {A} (a : A) : keeps_frame (ret a).
Proof. intros st a' st' [= _ <-]. apply frame_refl. Qed.

Lemma keeps_frame_get : keeps_frame get.
Proof. intros st a' st' [= _ <-]. apply frame_refl. Qed.

Lemma keeps_frame_raise {A} cls msg : keeps_frame (@raise A cls msg).
Proof. intros st a st'. discriminate. Qed.

Lemma keeps_frame_bind {A B} (c : M A) (k : A -> M B) :
  keeps_frame c -> (forall a, keeps_frame (k a)) -> keeps_frame (bind c k).
Proof.
  intros Hc Hk st b st' H. apply bind_Ok_inv in H.
  destruct H as (a & st1 & H1 & H2).
  exact (frame_trans _ _ _ (Hc _ _ _ H1) (Hk _ _ _ _ H2)).
Qed.

Lemma keeps_frame_wrapped {A} (n : node) (c : M A) :
  keeps_frame c -> keeps_frame (visit_wrapped n c).
Proof. intros Hc st a st' H. apply wrap_Ok_inv in H. exact (Hc _ _ _ H). Qed.

Lemma keeps_frame_add_vars_visible vars : keeps_frame (add_vars_visible vars).
Proof.
  intros st a st'. unfold add_vars_visible.
  destruct (scopes_visible st) as [|s rest] eqn:Hs; [discriminate|].
  intros [= _ <-]. unfold frame. simpl. rewrite Hs. repeat split.
Qed.

Lemma keeps_frame_add_constant k v : keeps_frame (add_constant k v).
Proof.
  intros st a st'. unfold add_constant.
  destruct (scopes_constants st) as [|s rest] eqn:Hs; [discriminate|].
  intros [= _ <-]. unfold frame. simpl. rewrite Hs. repeat split.
Qed.

Lemma keeps_frame_update_constants l : keeps_frame (update_constants l).
Proof.
  intros st a st'. unfold update_constants.
  destruct (scopes_constants st) as [|s rest] eqn:Hs; [discriminate|].
  intros [= _ <-]. unfold frame. simpl. rewrite Hs. repeat split.
Qed.

Lemma keeps_frame_lookup k d : keeps_frame (lookup_or_KeyError k d).
Proof.
  unfold lookup_or_KeyError. destruct (d !! k);
    [apply keeps_frame_ret|apply keeps_frame_raise].
Qed.

Lemma keeps_frame_visit_value v : keeps_frame (visit_value v).
Proof.
  destruct v; simpl.
  - apply keeps_frame_bind; [apply keeps_frame_get|intros; apply keeps_frame_ret].
  - apply keeps_frame_wrapped, keeps_frame_raise.
Qed.

Ltac keeps_frame_step :=
  first
    [ apply keeps_frame_ret
    | apply keeps_frame_get
    | apply keeps_frame_raise
    | apply keeps_frame_add_vars_visible
    | apply keeps_frame_add_constant
    | apply keeps_frame_update_constants
    | apply keeps_frame_lookup
    | apply keeps_frame_visit_value
    | apply keeps_frame_bind; [|intros ?]
    | match goal with
      | |- keeps_frame (if ?b then _ else _) => destruct b
      | |- keeps_frame (match ?x with _ => _ end) => destruct x
      end ].

Lemma keeps_frame_visit_list (ss : list stmt) :
  Forall (fun n => keeps_frame (visit_stmt n)) ss ->
  keeps_frame (visit_list visit_stmt ss).
Proof.
  induction 1 as [|n ss Hn _ IH]; intros st a st' Hrun.
  - injection Hrun as _ <-. apply frame_refl.
  - rewrite visit_list_cons in Hrun.
    destruct (visit_stmt n st) as [[r|e] st1] eqn:Hv; [|discriminate].
    destruct (visit_list visit_stmt ss st1) as [[rs|e] st2] eqn:Hl; [|discriminate].
    injection Hrun as _ <-.
    exact (frame_trans _ _ _ (Hn _ _ _ Hv) (IH _ _ _ Hl)).
Qed.

(** After [enter_scope], steps that keep the frame and [exit_scope],
    the state is as it was. *)
Lemma scope_restored st st2 u st3 :
  frame (snd (enter_scope st)) st2 ->
  exit_scope st2 = (Ok u, st3) ->
  st3 = st.
Proof.
  intros (Hk & _ & Hv & _ & Hcs) Hexit.
  simpl in Hk, Hv, Hcs. unfold exit_scope in Hexit.
  destruct (scopes_visible st2) as [|v vis]; [discriminate|].
  destruct (scopes_constants st2) as [|c0 cs]; [discriminate|].
  injection Hexit as _ <-. simpl in Hv, Hcs. subst vis cs. rewrite Hk.
  now destruct st.
Qed.

(** What a successful [visit_FunctionDef] leaves in the state is the
    name of the function among the visible names, nothing else. *)
Lemma visit_FunctionDef_frame (visit_body : list stmt -> M (list stmt))
    n loc name args body returns :
  keeps_frame (visit_body body) ->
  forall st r st',
    visit_FunctionDef visit_body n loc name args body returns st = (Ok r, st') ->
    add_var_visible name st = (Ok tt, st').
Proof.
  intros Hbody st r st' H. unfold visit_FunctionDef in H.
  apply bind_Ok_inv in H. destruct H as ([] & st0 & Hadd & H).
  apply bind_Ok_inv in H. destruct H as ([] & st1 & Henter & H).
  rewrite Hadd. clear Hadd. injection Henter as <-.
  bind_inv H.
  match goal with
  | Hexit : exit_scope ?s = (Ok _, ?s') |- _ =>
      injection H as _ <-; revert Hexit
  end.
  repeat match goal with
         | Hs : ?c ?s = (Ok ?a, ?s') |- _ =>
             assert (frame s s')
               by (apply (fun K : keeps_frame c => K s a s' Hs); unfold reraise;
                   repeat first [ exact Hbody | keeps_frame_step ]);
             clear Hs
         end.
  intros Hexit. f_equal. symmetry. refine (scope_restored _ _ _ _ _ Hexit).
  repeat (eapply frame_trans; [eassumption|]). apply frame_refl.
Qed.

Lemma visit_stmt_keeps_frame (n : stmt) : keeps_frame (visit_stmt n).
Proof.
  induction n as [loc name args body returns IHb
                 |loc target iter body orelse IHb IHo
                 |loc test body orelse IHb IHo
                 |loc test body orelse IHb IHo
                 |n Hsimple] using stmt_ind_bodies.
  - simpl. apply keeps_frame_wrapped. intros st r st' H.
    apply visit_FunctionDef_frame in H; [|now apply keeps_frame_visit_list].
    exact (keeps_frame_add_vars_visible _ _ _ _ H).
  - simpl. apply keeps_frame_wrapped. unfold generic_visit.
    repeat first [ apply (keeps_frame_visit_list body IHb)
                 | apply (keeps_frame_visit_list orelse IHo) | keeps_frame_step ].
  - simpl. apply keeps_frame_wrapped. unfold generic_visit.
    repeat first [ apply (keeps_frame_visit_list body IHb)
                 | apply (keeps_frame_visit_list orelse IHo) | keeps_frame_step ].
  - simpl. apply keeps_frame_wrapped. unfold generic_visit.
    repeat first [ apply (keeps_frame_visit_list body IHb)
                 | apply (keeps_frame_visit_list orelse IHo) | keeps_frame_step ].
  - destruct n; try discriminate; simpl; apply keeps_frame_wrapped;
      unfold generic_visit, visit_ClassDef, visit_Assign, visit_AnnAssign,
        visit_Import, reraise;
      repeat keeps_frame_step.
Qed.


(** X14. A module that the pass gets through leaves both scope stacks as
    they were before the visit, and the single-assignment set is the one
    computed from this module. *)
Theorem visit_Module_restores_scopes m st m' st' :
  visit_Module m st = (Ok m', st') ->
  scopes_visible st' = scopes_visible st /\
  scopes_constants st' = scopes_constants st /\
  constants st' = single_assignment_set (DefinedTimesVisitor_vars m).
Proof.
  intros H. unfold visit_Module in H. apply wrap_Ok_inv in H.
  apply bind_Ok_inv in H. destruct H as ([] & st1 & Henter & H).
  apply bind_Ok_inv in H. destruct H as ([] & st2 & Hadd & H).
  apply bind_Ok_inv in H. destruct H as ([] & st3 & Hset & H).
  apply bind_Ok_inv in H. destruct H as (body' & st4 & Hbody & H).
  apply bind_Ok_inv in H. destruct H as ([] & st5 & Hexit & H).
  injection H as _ <-. injection Henter as <-. injection Hset as <-.
  apply keeps_frame_add_vars_visible in Hadd.
  apply keeps_frame_visit_list in Hbody.
  2:{ apply Forall_forall. intros n _. apply visit_stmt_keeps_frame. }
  destruct Hadd as (_ & _ & Hv2 & _ & Hc2).
  destruct Hbody as (Hk4 & _ & Hv4 & _ & Hc4).
  simpl in Hv2, Hc2, Hk4, Hv4, Hc4. unfold exit_scope in Hexit.
  destruct (scopes_visible st4) as [|v vis]; [discriminate|].
  destruct (scopes_constants st4) as [|c cs]; [discriminate|].
  injection Hexit as <-. simpl in *. repeat split; congruence.
Qed.

(** *** Further properties: expressions *)

Lemma expr_ind_children (P : expr -> Prop) :
  (forall loc v, P (Constant loc v)) ->
  (forall loc id ctx, P (Name loc id ctx)) ->
  (forall loc l op r, P l -> P r -> P (BinOp loc l op r)) ->
  (forall loc f args kws,
     P f -> Forall P args -> Forall (fun kw => P (snd kw)) kws ->
     P (Call loc f args kws)) ->
  (forall loc v attr ctx, P v -> P (Attribute loc v attr ctx)) ->
  (forall loc v sl ctx, P v -> P sl -> P (Subscript loc v sl ctx)) ->
  (forall loc elts ctx, Forall P elts -> P (List loc elts ctx)) ->
  (forall loc elts ctx, Forall P elts -> P (Tuple loc elts ctx)) ->
  forall n, P n.
Proof.
  intros Hconst Hname Hbin Hcall Hattr Hsub Hlist Htuple. fix IH 1.
  assert (Hall : forall es, Forall P es).
  { fix IHes 1. intros [|e es]; constructor; [apply IH | apply IHes]. }
  intros [loc v|loc id ctx|loc l op r|loc f args kws|loc v attr ctx
         |loc v sl ctx|loc elts ctx|loc elts ctx].
  - apply Hconst.
  - apply Hname.
  - apply Hbin; apply IH.
  - apply Hcall; [apply IH | apply Hall |].
    revert kws. fix IHkws 1. intros [|[k v] kws]; constructor;
      [apply IH | apply IHkws].
  - apply Hattr, IH.
  - apply Hsub; apply IH.
  - apply Hlist, Hall.
  - apply Htuple, Hall.
Qed.

(** X15. The visit of an expression keeps the span of the node, whether the
    node is replaced or not, and returns a constant as it is. *)
Theorem visit_expr_keeps_span (st : state) (n : expr) :
  loc_of (visit_expr st n) = loc_of n /\
  (is_Constant n = true -> visit_expr st n = n).
Proof.
  destruct (visit_children_head (visit_expr st) n) as [Hc Hl].
  rewrite visit_expr_unfold. unfold fold_node. rewrite Hc. split.
  - destruct (is_Constant n); [exact Hl|].
    destruct (str_contains _ _); [exact Hl|].
    destruct (py_eval _ _ _) as [v|e]; [|exact Hl].
    destruct (existsb _ _); [exact Hl|exact Hl].
  - intros Hn. rewrite Hn. destruct n; try discriminate. reflexivity.
Qed.

Lemma fold_node_eval_fails (st : state) (n : expr) :
  (exists e, py_eval (unparse (NodeExpr n)) (non_overwritten_globals st)
               (constant_vars st) = Raise e) ->
  fold_node st n = n.
Proof.
  intros [e He]. unfold fold_node.
  destruct (is_Constant n); [reflexivity|].
  destruct (str_contains _ _); [reflexivity|]. rewrite He. reflexivity.
Qed.

Lemma map_fixed {A} (f : A -> A) (l : list A) :
  Forall (fun x => f x = x) l -> map f l = l.
Proof. induction 1 as [|x l Hx _ IH]; simpl; [reflexivity|]. now rewrite Hx, IH. Qed.

(** X16. In a state where [eval] fails on every text, the visit of an
    expression returns the expression as it is, down to every child. *)
Theorem visit_expr_without_eval (st : state) (n : expr) :
  (forall source, exists e,
     py_eval source (non_overwritten_globals st) (constant_vars st) = Raise e) ->
  visit_expr st n = n.
Proof.
  intros Hfail.
  induction n as [loc v|loc id ctx|loc l op r IHl IHr|loc f args kws IHf IHargs IHkws
                 |loc v attr ctx IHv|loc v sl ctx IHv IHsl|loc elts ctx IHelts
                 |loc elts ctx IHelts] using expr_ind_children;
    rewrite visit_expr_unfold; simpl visit_children.
  - reflexivity.
  - apply fold_node_eval_fails, Hfail.
  - rewrite IHl, IHr. apply fold_node_eval_fails, Hfail.
  - rewrite IHf, (map_fixed _ _ IHargs).
    rewrite (map_fixed (fun kw => match kw with (k, v) => (k, visit_expr st v) end) kws).
    + apply fold_node_eval_fails, Hfail.
    + eapply Forall_impl; [exact IHkws|]. intros [k v] Hv. simpl in Hv. now rewrite Hv.
  - rewrite IHv. apply fold_node_eval_fails, Hfail.
  - rewrite IHv, IHsl. apply fold_node_eval_fails, Hfail.
  - rewrite (map_fixed _ _ IHelts). apply fold_node_eval_fails, Hfail.
  - rewrite (map_fixed _ _ IHelts). apply fold_node_eval_fails, Hfail.
Qed.

Lemma prefix_append (needle post : string) :
  String.prefix needle (needle +:+ post) = true.
Proof.
  induction needle as [|c needle IH]; simpl; [now destruct post|].
  destruct (Ascii.ascii_dec c c); [exact IH|contradiction].
Qed.

Lemma str_contains_append (pre needle post : string) :
  str_contains needle (pre +:+ needle +:+ post) = true.
Proof.
  induction pre as [|c pre IH].
  - change (str_contains needle (needle +:+ post) = true).
    pose proof (prefix_append needle post) as Hp.
    destruct (needle +:+ post); cbn [str_contains]; rewrite Hp; reflexivity.
  - change (str_contains needle (String c (pre +:+ needle +:+ post)) = true).
    cbn [str_contains]. rewrite IH. apply orb_true_r.
Qed.

(** X17. An expression whose text, once its children are visited, has
    [print(] anywhere in it is not replaced, whatever [eval] would give
    for it. *)
Theorem print_is_not_folded (st : state) (n : expr) (pre post : string) :
  let n' := visit_children (visit_expr st) n in
  unparse (NodeExpr n') = pre +:+ "print(" +:+ post ->
  visit_expr st n = n'.
Proof.
  intros n' Htext. rewrite visit_expr_unfold. fold n'. unfold fold_node.
  destruct (is_Constant n'); [reflexivity|].
  rewrite Htext, str_contains_append. reflexivity.
Qed.

(** *** Further properties: the dictionaries handed to [exec] and [eval] *)

(** X18. The globals handed to [exec] and [eval] bind exactly the names of
    [SAFE_GLOBALS_LIST]: a name that is visible in some open scope is bound
    to the function that raises, every other one to the built-in. *)
Theorem non_overwritten_globals_shadowing (st : state) (k : string) :
  non_overwritten_globals st !! k
  = if decide (k ∈ SAFE_GLOBALS_LIST)
    then Some (if decide (k ∈ visible_vars st) then PyErr else PyBuiltin k)
    else None.
Proof.
  unfold non_overwritten_globals. rewrite map_lookup_imap.
  destruct (SAFE_GLOBALS !! k) as [v|] eqn:Hk.
  - destruct (SAFE_GLOBALS_lookup _ _ Hk) as [-> Hin].
    destruct (decide (k ∈ SAFE_GLOBALS_LIST)); [reflexivity|contradiction].
  - destruct (decide (k ∈ SAFE_GLOBALS_LIST)) as [Hin|]; [|reflexivity].
    exfalso. revert Hk Hin. unfold SAFE_GLOBALS. generalize SAFE_GLOBALS_LIST.
    intros l Hk Hin. apply not_elem_of_list_to_map in Hk. apply Hk.
    rewrite map_map. simpl. now rewrite map_id.
Qed.

(** X19. A constant recorded by [add_constant] is what [constant_vars]
    gives for its name from then on, whatever an outer scope binds the name
    to; the other names are bound as before. *)
Theorem add_constant_shadows (k : string) (v : pyobj) (st st' : state) :
  add_constant k v st = (Ok tt, st') ->
  constant_vars st' !! k = Some v /\
  forall k', k' <> k -> constant_vars st' !! k' = constant_vars st !! k'.
Proof.
  unfold add_constant, constant_vars.
  destruct (scopes_constants st) as [|s rest]; [discriminate|].
  intros [= <-]. simpl. split.
  - apply lookup_union_Some_l, lookup_insert_eq.
  - intros k' Hne. rewrite !lookup_union, lookup_insert_ne by congruence.
    reflexivity.
Qed.

(** *** Further properties: statements *)

(** X20. An assignment whose targets are not one single name comes back
    as it is: its value is not visited, so nothing in it is folded, and
    the state of the pass is untouched. *)
Theorem visit_Assign_other_targets (st : state) (loc : span) (targets : list expr)
    (value : expr) :
  (forall tloc id ctx, targets <> [Name tloc id ctx]) ->
  visit_stmt (Assign loc targets value) st
  = (Ok (Some (Assign loc targets value)), st).
Proof.
  intros Hother. simpl. unfold visit_Assign.
  destruct targets as [|t [|t2 ts]]; try reflexivity.
  destruct t; try reflexivity. now destruct (Hother loc0 id ctx).
Qed.

(** X21. An annotated name without a value ([x: int]) stops the pass: the
    visit of the absent value fails, so the visit of the statement never
    returns.  When the name is not in the single-assignment set, what is
    raised is the [AttributeError] of the visit of [None], wrapped there. *)
Theorem visit_AnnAssign_without_value (st : state) (loc tloc : span) (id : string)
    (ctx : expr_context) (ann : expr) :
  let n := AnnAssign loc (Name tloc id ctx) ann None in
  (forall r st', visit_stmt n st <> (Ok r, st')) /\
  (id ∉ constants st ->
   visit_stmt n st
   = (Raise (CompilerError
               (PyError AttributeError "'NoneType' object has no attribute '_fields'")
               NodeNone step), st)).
Proof.
  intros n. split.
  - intros r st' H. simpl in H. apply wrap_Ok_inv in H.
    unfold visit_AnnAssign in H. simpl in H.
    apply bind_Ok_inv in H. destruct H as (a & st1 & _ & H).
    apply bind_Ok_inv in H. destruct H as (a0 & st2 & _ & H).
    apply bind_Ok_inv in H. destruct H as (a1 & st3 & H & _).
    discriminate H.
  - intros Hout. simpl. run_pass.
    destruct (decide (id ∈ constants st)); [contradiction|reflexivity].
Qed.


(** X23. An [import] of at least one name is dropped without being
    evaluated: its names are [alias] nodes, none of which is a member of the
    set of strings, so [exec] is not called and the state of the pass is
    untouched.  A list of statements that begins with such an import is
    visited as the rest of the list is, from the same state. *)
Theorem visit_Import_never_evaluates (st : state) (loc : span) (a : alias)
    (names : list alias) :
  visit_stmt (Import loc (a :: names)) st = (Ok None, st) /\
  forall rest,
    visit_body_stmts (Import loc (a :: names) :: rest) st = visit_body_stmts rest st.
Proof.
  assert (H : visit_stmt (Import loc (a :: names)) st = (Ok None, st))
    by reflexivity.
  split; [exact H|]. intros rest.
  unfold visit_body_stmts. rewrite visit_list_cons, H.
  destruct (visit_list visit_stmt rest st) as [[rs|e] st2]; reflexivity.
Qed.


End Pass.

(** *** Further properties: the two collectors *)

(** Whatever [f] is applied to, its result is above what its argument was
    above: [f] only adds. *)
Definition grows_in {S : Type} (R : S -> S -> Prop) (f : S -> S) : Prop :=
  forall s x, R s x -> R s (f x).

Lemma fold_left_grows {S A : Type} (R : S -> S -> Prop) (f : S -> A -> S)
    (l : list A) :
  Forall (fun a => grows_in R (fun s => f s a)) l ->
  grows_in R (fun s => fold_left f l s).
Proof.
  induction 1 as [|a l Ha _ IH]; intros s x Hx; simpl; [exact Hx|].
  apply IH, Ha, Hx.
Qed.

Lemma visit_names_grows {S : Type} (R : S -> S -> Prop)
    (visit_Name : string -> expr_context -> S -> S) :
  (forall id ctx, grows_in R (visit_Name id ctx)) ->
  forall e, grows_in R (visit_names visit_Name e).
Proof.
  intros Hname.
  induction e as [loc v|loc id ctx|loc l op r IHl IHr|loc f args kws IHf IHargs IHkws
                 |loc v attr ctx IHv|loc v sl ctx IHv IHsl|loc elts ctx IHelts
                 |loc elts ctx IHelts] using expr_ind_children;
    intros s x Hx; simpl.
  - exact Hx.
  - apply Hname, Hx.
  - apply IHr, IHl, Hx.
  - apply IHf in Hx. revert Hx. generalize (visit_names visit_Name f x). intros y Hy.
    assert (Hargs : R s
      ((fix visit_list (es : list expr) (s : S) : S :=
          match es with
          | [] => s
          | e' :: es' => visit_list es' (visit_names visit_Name e' s)
          end) args y)).
    { revert y Hy. induction IHargs as [|e es He _ IH]; intros y Hy; [exact Hy|].
      apply IH, He, Hy. }
    revert Hargs. generalize
      ((fix visit_list (es : list expr) (s : S) : S :=
          match es with
          | [] => s
          | e' :: es' => visit_list es' (visit_names visit_Name e' s)
          end) args y).
    induction IHkws as [|[k v] kws Hv _ IH]; intros z Hz; [exact Hz|].
    apply IH, Hv, Hz.
  - apply IHv, Hx.
  - apply IHsl, IHv, Hx.
  - revert x Hx. induction IHelts as [|e es He _ IH]; intros x Hx; [exact Hx|].
    apply IH, He, Hx.
  - revert x Hx. induction IHelts as [|e es He _ IH]; intros x Hx; [exact Hx|].
    apply IH, He, Hx.
Qed.

Lemma visit_names_opt_grows {S : Type} (R : S -> S -> Prop)
    (visit_Name : string -> expr_context -> S -> S) :
  (forall id ctx, grows_in R (visit_Name id ctx)) ->
  forall e, grows_in R (visit_names_opt visit_Name e).
Proof.
  intros Hname [e|] s x Hx; simpl; [|exact Hx].
  now apply visit_names_grows.
Qed.

Lemma visit_names_list_grows {S : Type} (R : S -> S -> Prop)
    (visit_Name : string -> expr_context -> S -> S) :
  (forall id ctx, grows_in R (visit_Name id ctx)) ->
  forall es, grows_in R (visit_names_list visit_Name es).
Proof.
  intros Hname es. unfold visit_names_list.
  apply (fold_left_grows R (fun s e => visit_names visit_Name e s)).
  apply Forall_forall. intros e _. now apply visit_names_grows.
Qed.

Lemma visit_names_arguments_grows {S : Type} (R : S -> S -> Prop)
    (visit_Name : string -> expr_context -> S -> S) :
  (forall id ctx, grows_in R (visit_Name id ctx)) ->
  forall a, grows_in R (visit_names_arguments visit_Name a).
Proof.
  intros Hname a s x Hx. unfold visit_names_arguments.
  apply visit_names_list_grows; [exact Hname|].
  apply (fold_left_grows R (fun s x => visit_names_opt visit_Name (annotation x) s));
    [|exact Hx].
  apply Forall_forall. intros y _. now apply visit_names_opt_grows.
Qed.

(** How often [name] has been written according to the counter. *)
Definition written (vars : gmap string nat) (name : string) : nat :=
  default 0%nat (vars !! name).

Definition counts_le (a b : gmap string nat) : Prop :=
  forall k, (written a k <= written b k)%nat.

Lemma bump_grows (name : string) : grows_in counts_le (bump name).
Proof.
  intros s x Hx k. specialize (Hx k). unfold written, bump in *.
  destruct (decide (name = k)) as [->|Hne].
  - rewrite lookup_insert_eq. simpl. lia.
  - rewrite lookup_insert_ne by exact Hne. exact Hx.
Qed.

Lemma DefinedTimesVisitor_visit_Name_grows id ctx :
  grows_in counts_le (DefinedTimesVisitor_visit_Name id ctx).
Proof. destruct ctx; intros s x Hx; simpl; [exact Hx| |exact Hx]. now apply bump_grows. Qed.

Ltac counter_grows IHb IHo :=
  repeat first
    [ assumption
    | apply (visit_names_arguments_grows counts_le _ DefinedTimesVisitor_visit_Name_grows)
    | apply (visit_names_opt_grows counts_le _ DefinedTimesVisitor_visit_Name_grows)
    | apply (visit_names_list_grows counts_le _ DefinedTimesVisitor_visit_Name_grows)
    | apply (visit_names_grows counts_le _ DefinedTimesVisitor_visit_Name_grows)
    | apply bump_grows
    | apply IHo
    | apply IHb ].

(** The counter only counts up. *)
Lemma DefinedTimesVisitor_visit_grows (n : stmt) :
  grows_in counts_le (DefinedTimesVisitor_visit n).
Proof.
  induction n as [loc name args body returns IHb
                 |loc target iter body orelse IHb IHo
                 |loc test body orelse IHb IHo
                 |loc test body orelse IHb IHo
                 |n Hsimple] using stmt_ind_bodies;
    intros s x Hx.
  - simpl.
    assert (Hbody : forall y, counts_le s y -> counts_le s
      ((fix body (ss : list stmt) (vars : gmap string nat) : gmap string nat :=
          match ss with
          | [] => vars
          | x :: ss' => body ss' (DefinedTimesVisitor_visit x vars)
          end) body y)).
    { induction IHb as [|n ss Hn _ IH]; intros y Hy; [exact Hy|]. apply IH, Hn, Hy. }
    counter_grows Hbody Hbody.
  - exact Hx.
  - simpl.
    assert (Hbody : forall y, counts_le s y -> counts_le s
      ((fix body (ss : list stmt) (vars : gmap string nat) : gmap string nat :=
          match ss with
          | [] => vars
          | x :: ss' => body ss' (DefinedTimesVisitor_visit x vars)
          end) body y)).
    { induction IHb as [|n ss Hn _ IH]; intros y Hy; [exact Hy|]. apply IH, Hn, Hy. }
    assert (Horelse : forall y, counts_le s y -> counts_le s
      ((fix body (ss : list stmt) (vars : gmap string nat) : gmap string nat :=
          match ss with
          | [] => vars
          | x :: ss' => body ss' (DefinedTimesVisitor_visit x vars)
          end) orelse y)).
    { induction IHo as [|n ss Hn _ IH]; intros y Hy; [exact Hy|]. apply IH, Hn, Hy. }
    counter_grows Hbody Horelse.
  - exact Hx.
  - destruct n; try discriminate; simpl; counter_grows Hx Hx.
Qed.

(** X27. The counter only counts up, so a name that it has found written
    twice in the first statements of a module is not in the
    single-assignment set of the module, whatever statements follow. *)
Theorem written_twice_is_not_constant (pre post : list stmt) (k : string) :
  (2 <= written (DefinedTimesVisitor_vars (Module pre)) k)%nat ->
  k ∉ single_assignment_set (DefinedTimesVisitor_vars (Module (pre ++ post))).
Proof.
  intros Htwice Hin. unfold DefinedTimesVisitor_vars in *.
  rewrite fold_left_app in Hin.
  assert (Hle : counts_le
            (fold_left (fun vars s => DefinedTimesVisitor_visit s vars) pre ∅)
            (fold_left (fun vars s => DefinedTimesVisitor_visit s vars) post
               (fold_left (fun vars s => DefinedTimesVisitor_visit s vars) pre ∅))).
  { apply (fold_left_grows counts_le (fun vars s => DefinedTimesVisitor_visit s vars)).
    - apply Forall_forall. intros n _. apply DefinedTimesVisitor_visit_grows.
    - intros k'. reflexivity. }
  specialize (Hle k).
  unfold single_assignment_set in Hin. apply elem_of_dom in Hin.
  destruct Hin as [c Hc]. apply map_lookup_filter_Some in Hc.
  destruct Hc as [Hc Hone]. simpl in Hone. subst c.
  unfold written in Hle at 2. rewrite Hc in Hle. simpl in Hle. lia.
Qed.

Lemma ShallowNameDefCollector_visit_Name_grows id ctx :
  grows_in (⊆) (ShallowNameDefCollector_visit_Name id ctx).
Proof.
  destruct ctx; intros s x Hx; simpl; [exact Hx| |exact Hx].
  intros y Hy. apply elem_of_union. right. exact (Hx y Hy).
Qed.

Lemma add_name_grows (name : string) :
  grows_in (⊆) (fun vars : gset string => {[ name ]} ∪ vars).
Proof. intros s x Hx y Hy. apply elem_of_union. right. exact (Hx y Hy). Qed.

Ltac collector_grows IHb IHo :=
  repeat first
    [ assumption
    | apply (visit_names_opt_grows (⊆) _ ShallowNameDefCollector_visit_Name_grows)
    | apply (visit_names_list_grows (⊆) _ ShallowNameDefCollector_visit_Name_grows)
    | apply (visit_names_grows (⊆) _ ShallowNameDefCollector_visit_Name_grows)
    | apply (add_name_grows _ _ _)
    | apply IHo
    | apply IHb ].

(** The collector only adds names. *)
Lemma ShallowNameDefCollector_visit_grows (n : stmt) :
  grows_in (⊆) (ShallowNameDefCollector_visit n).
Proof.
  induction n as [loc name args body returns IHb
                 |loc target iter body orelse IHb IHo
                 |loc test body orelse IHb IHo
                 |loc test body orelse IHb IHo
                 |n Hsimple] using stmt_ind_bodies;
    intros s x Hx.
  - simpl. collector_grows Hx Hx.
  - simpl.
    assert (Hlist : forall ss,
      Forall (fun n => grows_in (⊆) (ShallowNameDefCollector_visit n)) ss ->
      forall y, s ⊆ y -> s ⊆
      (fix body (ss : list stmt) (vars : gset string) : gset string :=
          match ss with
          | [] => vars
          | x :: ss' => body ss' (ShallowNameDefCollector_visit x vars)
          end) ss y).
    { induction 1 as [|n ss Hn _ IH]; intros y Hy; [exact Hy|]. apply IH, Hn, Hy. }
    pose proof (Hlist body IHb) as Hbody. pose proof (Hlist orelse IHo) as Horelse.
    collector_grows Hbody Horelse.
  - simpl.
    assert (Hlist : forall ss,
      Forall (fun n => grows_in (⊆) (ShallowNameDefCollector_visit n)) ss ->
      forall y, s ⊆ y -> s ⊆
      (fix body (ss : list stmt) (vars : gset string) : gset string :=
          match ss with
          | [] => vars
          | x :: ss' => body ss' (ShallowNameDefCollector_visit x vars)
          end) ss y).
    { induction 1 as [|n ss Hn _ IH]; intros y Hy; [exact Hy|]. apply IH, Hn, Hy. }
    pose proof (Hlist body IHb) as Hbody. pose proof (Hlist orelse IHo) as Horelse.
    collector_grows Hbody Horelse.
  - simpl.
    assert (Hlist : forall ss,
      Forall (fun n => grows_in (⊆) (ShallowNameDefCollector_visit n)) ss ->
      forall y, s ⊆ y -> s ⊆
      (fix body (ss : list stmt) (vars : gset string) : gset string :=
          match ss with
          | [] => vars
          | x :: ss' => body ss' (ShallowNameDefCollector_visit x vars)
          end) ss y).
    { induction 1 as [|n ss Hn _ IH]; intros y Hy; [exact Hy|]. apply IH, Hn, Hy. }
    pose proof (Hlist body IHb) as Hbody. pose proof (Hlist orelse IHo) as Horelse.
    collector_grows Hbody Horelse.
  - destruct n; try discriminate; simpl; collector_grows Hx Hx.
Qed.

(** The statement binds [id] where it stands: a function or a class of that
    name, or an assignment with the name among its targets. *)
Definition defines (s : stmt) (id : string) : Prop :=
  match s with
  | FunctionDef _ name _ _ _ | ClassDef _ name _ _ => name = id
  | Assign _ targets _ => exists loc, In (Name loc id Store) targets
  | AnnAssign _ (Name _ id' Store) _ _ => id' = id
  | _ => False
  end.

Lemma ShallowNameDefCollector_visit_defines (s : stmt) (id : string) vars :
  defines s id -> id ∈ ShallowNameDefCollector_visit s vars.
Proof.
  destruct s; simpl; try contradiction.
  - intros ->. apply elem_of_union. left. now apply elem_of_singleton.
  - intros ->. apply elem_of_union. left. now apply elem_of_singleton.
  - intros [tloc Hin]. apply in_split in Hin. destruct Hin as (l1 & l2 & ->).
    assert (Hsub : {[ id ]} ⊆
      visit_names ShallowNameDefCollector_visit_Name value
        (visit_names_list ShallowNameDefCollector_visit_Name
           (l1 ++ Name tloc id Store :: l2) vars)).
    { apply (visit_names_grows (⊆) _ ShallowNameDefCollector_visit_Name_grows).
      unfold visit_names_list. rewrite fold_left_app. simpl.
      apply (visit_names_list_grows (⊆) _ ShallowNameDefCollector_visit_Name_grows).
      intros y Hy. apply elem_of_union. left. exact Hy. }
    apply Hsub. now apply elem_of_singleton.
  - destruct target; try contradiction. destruct ctx; try contradiction.
    intros ->.
    assert (Hsub : {[ id ]} ⊆
      visit_names_opt ShallowNameDefCollector_visit_Name value
        (visit_names ShallowNameDefCollector_visit_Name annotation0
           ({[ id ]} ∪ vars))).
    { apply (visit_names_opt_grows (⊆) _ ShallowNameDefCollector_visit_Name_grows).
      apply (visit_names_grows (⊆) _ ShallowNameDefCollector_visit_Name_grows).
      intros y Hy. apply elem_of_union. left. exact Hy. }
    apply Hsub. now apply elem_of_singleton.
Qed.

(** X28. Every name that a statement at the top level of a module binds (a
    function, a class, the target of an assignment) is among the names that
    the collector returns, hence visible in the scope of the module from
    its first statement on. *)
Theorem ShallowNameDefCollector_collects_definitions (body : list stmt) (s : stmt)
    (id : string) :
  In s body -> defines s id -> id ∈ ShallowNameDefCollector_vars (Module body).
Proof.
  intros Hin Hdef. apply in_split in Hin. destruct Hin as (l1 & l2 & ->).
  unfold ShallowNameDefCollector_vars. rewrite fold_left_app. simpl.
  assert (Hsub : {[ id ]} ⊆
    fold_left (fun vars s => ShallowNameDefCollector_visit s vars) l2
      (ShallowNameDefCollector_visit s
         (fold_left (fun vars s => ShallowNameDefCollector_visit s vars) l1 ∅))).
  { apply (fold_left_grows (⊆) (fun vars s => ShallowNameDefCollector_visit s vars)).
    - apply Forall_forall. intros n _. apply ShallowNameDefCollector_visit_grows.
    - intros y Hy. apply elem_of_singleton in Hy. subst y.
      now apply ShallowNameDefCollector_visit_defines. }
  apply Hsub. now apply elem_of_singleton.
Qed.

(** *** Properties of the write counter *)

Definition at_line (n : Z) : span :=
  {| lineno := n; col_offset := 0; end_lineno := n; end_col_offset := 0 |}.

(** [x = 1] followed by [if c: x = 2] *)
Definition write_in_conditional : mod_ :=
  Module
    [ Assign (at_line 1) [Name (at_line 1) "x" Store] (Constant (at_line 1) (PyInt 1));
      If (at_line 2) (Name (at_line 2) "c" Load)
        [ Assign (at_line 3) [Name (at_line 3) "x" Store]
            (Constant (at_line 3) (PyInt 2)) ]
        [] ].

(** [x = 1] followed by [for i in xs: x = 2] *)
Definition write_in_loop : mod_ :=
  Module
    [ Assign (at_line 1) [Name (at_line 1) "x" Store] (Constant (at_line 1) (PyInt 1));
      For (at_line 2) (Name (at_line 2) "i" Store) (Name (at_line 2) "xs" Load)
        [ Assign (at_line 3) [Name (at_line 3) "x" Store]
            (Constant (at_line 3) (PyInt 2)) ]
        [] ].

(** C2. The counter skips conditionals and [for] loops altogether, so a
    write inside one of them is not counted: a name assigned once at the top
    level and once more inside a conditional, or inside a loop body, is
    counted once and is a member of the single-assignment set. *)
Theorem single_assignment_set_ignores_branch_writes :
  (forall loc test body orelse vars,
     DefinedTimesVisitor_visit (If loc test body orelse) vars = vars) /\
  (forall loc target iter body orelse vars,
     DefinedTimesVisitor_visit (For loc target iter body orelse) vars = vars) /\
  "x" ∈ single_assignment_set (DefinedTimesVisitor_vars write_in_conditional) /\
  "x" ∈ single_assignment_set (DefinedTimesVisitor_vars write_in_loop).
Proof.
  split; [reflexivity|]. split; [reflexivity|].
  split; apply (bool_decide_unpack _); vm_compute; reflexivity.
Qed.

(** A [while] loop has no method in the counter: its body is traversed, and
    the single write of [while c: x = 1] makes [x] a member of the set. *)
Example single_assignment_set_counts_while_body :
  "x" ∈ single_assignment_set
          (DefinedTimesVisitor_vars
             (Module
                [ While (at_line 1) (Name (at_line 1) "c" Load)
                    [ Assign (at_line 2) [Name (at_line 2) "x" Store]
                        (Constant (at_line 2) (PyInt 1)) ]
                    [] ])).
Proof. apply (bool_decide_unpack _); vm_compute; reflexivity. Qed.

(** A name that is written inside conditionals and [for] loops only is not
    counted at all and is no member of the set. *)
Example single_assignment_set_skips_branch_only_name :
  "y" ∉ single_assignment_set
          (DefinedTimesVisitor_vars
             (Module
                [ If (at_line 1) (Name (at_line 1) "c" Load)
                    [ Assign (at_line 2) [Name (at_line 2) "y" Store]
                        (Constant (at_line 2) (PyInt 1)) ]
                    [] ])).
Proof. apply (bool_decide_unpack _); vm_compute; reflexivity. Qed.

(** *** The pass on concrete programs *)

(** The text of the nodes used below, as [unparse] prints them. *)
Fixpoint unparse_expr (e : expr) : string :=
  match e with
  | Constant _ (PyInt z) => pretty z
  | Name _ id _ => id
  | BinOp _ l op r =>
      String.append (unparse_expr l)
        (String.append
           match op with
           | Add => " + " | Sub => " - " | Mult => " * "
           | FloorDiv => " // " | Mod => " % "
           end
           (unparse_expr r))
  | List _ elts _ =>
      String.append "[" (String.append (String.concat ", " (map unparse_expr elts)) "]")
  | _ => ""
  end.

Definition newline : string := String (Ascii.ascii_of_nat 10) "".

Definition unparse_import (names : list alias) : string :=
  String.append "import " (String.concat ", " (map name names)).

Definition unparse_node (n : node) : string :=
  match n with
  | NodeExpr e => unparse_expr e
  | NodeStmt (Assign _ [t] v) =>
      String.append (unparse_expr t) (String.append " = " (unparse_expr v))
  | NodeStmt (AnnAssign _ t a (Some v)) =>
      String.append (unparse_expr t)
        (String.append ": "
           (String.append (unparse_expr a) (String.append " = " (unparse_expr v))))
  | NodeStmt (Import _ names) => unparse_import names
  | NodeStmt (ClassDef _ name [] [Import _ names]) =>
      String.append "class "
        (String.append name
           (String.append ":"
              (String.append newline (String.append "    " (unparse_import names)))))
  | _ => ""
  end.

(** The text of [class A:] with the body [import os]. *)
Definition class_with_import_text : string :=
  String.append "class A:" (String.append newline "    import os").

(** A name is looked up in the locals, then in the globals. *)
Definition lookup_name (id : string) (g l : gmap string pyobj)
  : result host_error pyobj :=
  match l !! id, g !! id with
  | Some v, _ => Ok v
  | None, Some v => Ok v
  | None, None => Raise (NameError, id)
  end.

(** What [eval] returns on the source texts used below. *)
Definition eval_text (source : string) (g l : gmap string pyobj)
  : result host_error pyobj :=
  if String.eqb source "abs" then lookup_name "abs" g l
  else if String.eqb source "[abs]" then
    v <- lookup_name "abs" g l ;; Ok (PyList [v])
  else if String.eqb source "2 + 3" then Ok (PyInt 5)
  else if String.eqb source "1 // 0" then
    Raise (ZeroDivisionError, "integer division or modulo by zero")
  else Raise (SyntaxError, source).

(** What [exec] does on the source texts used below. *)
Definition exec_text (source : string) (g l : gmap string pyobj)
  : result host_error (gmap string pyobj * gmap string pyobj) :=
  if String.eqb source "x: int = 1 // 0" then
    Raise (ZeroDivisionError, "integer division or modulo by zero")
  else if String.eqb source "x: int = 5" then Ok (g, <[ "x" := PyInt 5 ]> l)
  else if String.eqb source "x = 5" then Ok (g, <[ "x" := PyInt 5 ]> l)
  else if String.eqb source class_with_import_text then
    Ok (g, <[ "A" := PyObject "<class 'A'>" ]> l)
  else Raise (SyntaxError, source).

(** [x: int = 1 // 0] *)
Definition failing_annotated_assignment : stmt :=
  AnnAssign (at_line 1) (Name (at_line 1) "x" Store) (Name (at_line 1) "int" Load)
    (Some (BinOp (at_line 1) (Constant (at_line 1) (PyInt 1)) FloorDiv
             (Constant (at_line 1) (PyInt 0)))).

(** The state of the pass inside a module whose only written name is [x]. *)
Definition inside_module : state :=
  {| scopes_visible := [ {[ "x" ]}; ∅ ];
     scopes_constants := [ ∅; ∅ ];
     constants := {[ "x" ]} |}.

Lemma exec_failure_escapes_witness :
  "x" ∈ constants inside_module /\
  exec_text (unparse_node (NodeStmt failing_annotated_assignment))
    (non_overwritten_globals inside_module) (constant_vars inside_module)
    = Raise (ZeroDivisionError, "integer division or modulo by zero") /\
  visit_stmt unparse_node eval_text exec_text failing_annotated_assignment inside_module
    = (Raise (CompilerError
                (PyError ZeroDivisionError "integer division or modulo by zero")
                (NodeStmt failing_annotated_assignment) step),
       inside_module).
Proof.
  assert (Hin : "x" ∈ constants inside_module)
    by (apply (bool_decide_unpack _); vm_compute; reflexivity).
  assert (Hexec :
    exec_text (unparse_node (NodeStmt failing_annotated_assignment))
      (non_overwritten_globals inside_module) (constant_vars inside_module)
    = Raise (ZeroDivisionError, "integer division or modulo by zero"))
    by reflexivity.
  split; [exact Hin|]. split; [exact Hexec|].
  exact (proj1 (exec_failure_escapes unparse_node eval_text exec_text
                  inside_module
                  (ZeroDivisionError, "integer division or modulo by zero"))
           (at_line 1) (at_line 1) "x" Store (Name (at_line 1) "int" Load) _
           Hin Hexec).
Defined.

(** The whole pass on the module [x: int = 1 // 0] aborts. *)
Example visit_Module_failing_annotated_assignment :
  fst (visit_Module unparse_node eval_text exec_text
         (Module [failing_annotated_assignment]) (init ∅))
  = Raise (CompilerError
             (PyError ZeroDivisionError "integer division or modulo by zero")
             (NodeStmt failing_annotated_assignment) step).
Proof. vm_compute. reflexivity. Qed.

(** Even when [exec] succeeds on [x: int = 5], the value is looked up in
    the globals, where the assignment did not put it. *)
Example visit_Module_annotated_assignment_KeyError :
  let n := AnnAssign (at_line 1) (Name (at_line 1) "x" Store)
             (Name (at_line 1) "int" Load) (Some (Constant (at_line 1) (PyInt 5))) in
  fst (visit_Module unparse_node eval_text exec_text (Module [n]) (init ∅))
  = Raise (CompilerError (PyError KeyError "x") (NodeStmt n) step).
Proof. vm_compute. reflexivity. Qed.

Lemma visited_imports_are_removed_witness :
  let n := Import (at_line 1) [ {| name := "os"; asname := None |} ] in
  scopes_constants (init ∅) <> [] /\
  exists st',
    visit_stmt unparse_node eval_text exec_text n (init ∅) = (Ok None, st').
Proof.
  intros n.
  assert (Hopen : scopes_constants (init ∅) <> []) by discriminate.
  split; [exact Hopen|].
  destruct (proj1 (visited_imports_are_removed unparse_node eval_text exec_text)
              (init ∅) (at_line 1) [ {| name := "os"; asname := None |} ] Hopen)
    as (st' & H & _).
  exists st'. exact H.
Defined.

(** [import os] at the top level is removed; [x = 5] stays. *)
Example visit_Module_drops_import :
  let x_is_5 :=
    Assign (at_line 2) [Name (at_line 2) "x" Store] (Constant (at_line 2) (PyInt 5)) in
  fst (visit_Module unparse_node eval_text exec_text
         (Module [Import (at_line 1) [ {| name := "os"; asname := None |} ]; x_is_5])
         (init ∅))
  = Ok (Module [x_is_5]).
Proof. vm_compute. reflexivity. Qed.

(** [class A:] with the body [import os]: the pass returns the module as it
    is, with the [Import] statement in the body of the class. *)
Lemma import_in_class_body_counterexample :
  let m :=
    Module [ ClassDef (at_line 1) "A" []
               [ Import (at_line 2) [ {| name := "os"; asname := None |} ] ] ] in
  fst (visit_Module unparse_node eval_text exec_text m (init ∅)) = Ok m /\
  existsb imports_anywhere (match m with Module body => body end) = true.
Proof.
  split; [vm_compute; reflexivity|reflexivity].
Qed.

(** The expression [[abs]] is replaced by a constant whose value is a list
    that holds a built-in function, not a value of an accepted type. *)
Lemma list_of_builtin_counterexample :
  let n := List (at_line 1) [Name (at_line 1) "abs" Load] Load in
  is_Constant n = false /\
  visit_expr unparse_node eval_text (init ∅) n
    = Constant (at_line 1) (PyList [PyBuiltin "abs"]) /\
  container_of_accepted (PyList [PyBuiltin "abs"]) = false.
Proof.
  split; [reflexivity|]. split; [vm_compute; reflexivity|reflexivity].
Qed.

(** [2 + 3] is folded to the constant [5]. *)
Example visit_expr_folds_sum :
  visit_expr unparse_node eval_text (init ∅)
    (BinOp (at_line 1) (Constant (at_line 1) (PyInt 2)) Add
       (Constant (at_line 1) (PyInt 3)))
  = Constant (at_line 1) (PyInt 5).
Proof. vm_compute. reflexivity. Qed.

Lemma generic_visit_replaces_exactly_witness :
  let n := BinOp (at_line 1) (Constant (at_line 1) (PyInt 2)) Add
             (Constant (at_line 1) (PyInt 3)) in
  (is_Constant n = false /\
   str_contains "print(" (unparse_node (NodeExpr n)) = false /\
   eval_text (unparse_node (NodeExpr n))
     (non_overwritten_globals (init ∅)) (constant_vars (init ∅)) = Ok (PyInt 5) /\
   accepted_class (PyInt 5)) /\
  visit_expr unparse_node eval_text (init ∅) n = Constant (at_line 1) (PyInt 5).
Proof.
  intros n.
  assert (H : is_Constant n = false /\
              str_contains "print(" (unparse_node (NodeExpr n)) = false /\
              eval_text (unparse_node (NodeExpr n))
                (non_overwritten_globals (init ∅)) (constant_vars (init ∅))
              = Ok (PyInt 5) /\
              accepted_class (PyInt 5)).
  { split; [reflexivity|]. split; [reflexivity|]. split; [reflexivity|exact I]. }
  split; [exact H|].
  exact (proj2 (proj2 (proj1 (generic_visit_replaces_exactly
                                unparse_node eval_text (init ∅) n)
                         (PyInt 5)) H)).
Defined.

(** *** Further concrete programs *)



Lemma visit_Module_restores_scopes_witness :
  let m :=
    Module [ Import (at_line 1) [ {| name := "os"; asname := None |} ];
             Assign (at_line 2) [Name (at_line 2) "x" Store]
               (Constant (at_line 2) (PyInt 5)) ] in
  exists m' st',
    visit_Module unparse_node eval_text exec_text m (init ∅) = (Ok m', st') /\
    scopes_constants st' = scopes_constants (init ∅).
Proof.
  intros m.
  assert (Hok : exists m',
            fst (visit_Module unparse_node eval_text exec_text m (init ∅)) = Ok m')
    by (vm_compute; eexists; reflexivity).
  destruct Hok as [m' Hok].
  destruct (visit_Module unparse_node eval_text exec_text m (init ∅))
    as [r0 st'] eqn:Hrun.
  simpl in Hok. subst r0. exists m', st'. split; [reflexivity|].
  exact (proj1 (proj2 (visit_Module_restores_scopes
                         unparse_node eval_text exec_text _ _ _ _ Hrun))).
Defined.

(** An [eval] that fails on every text. *)
Definition eval_fails (source : string) (g l : gmap string pyobj)
  : result host_error pyobj :=
  Raise (SyntaxError, source).

Lemma visit_expr_without_eval_witness :
  let n := BinOp (at_line 1) (Name (at_line 1) "a" Load) Add
             (List (at_line 1) [Constant (at_line 1) (PyInt 3)] Load) in
  (forall source, exists e,
     eval_fails source (non_overwritten_globals (init ∅)) (constant_vars (init ∅))
     = Raise e) /\
  visit_expr unparse_node eval_fails (init ∅) n = n.
Proof.
  intros n.
  assert (H : forall source, exists e,
            eval_fails source (non_overwritten_globals (init ∅))
              (constant_vars (init ∅)) = Raise e)
    by (intros source; eexists; reflexivity).
  split; [exact H|].
  exact (visit_expr_without_eval unparse_node eval_fails (init ∅) n H).
Defined.

(** The text of a call of a name with positional arguments; the other
    nodes as above. *)
Definition unparse_call (n : node) : string :=
  match n with
  | NodeExpr (Call _ (Name _ f _) args []) =>
      String.append f
        (String.append "(" (String.append (String.concat ", " (map unparse_expr args)) ")"))
  | _ => unparse_node n
  end.

Lemma print_is_not_folded_witness :
  let n := Call (at_line 1) (Name (at_line 1) "print" Load)
             [Name (at_line 1) "x" Load] [] in
  unparse_call (NodeExpr (visit_children (visit_expr unparse_call eval_text (init ∅)) n))
    = "" +:+ "print(" +:+ "x)" /\
  visit_expr unparse_call eval_text (init ∅) n = n.
Proof.
  intros n.
  assert (H : unparse_call
                (NodeExpr (visit_children (visit_expr unparse_call eval_text (init ∅)) n))
              = "" +:+ "print(" +:+ "x)")
    by (vm_compute; reflexivity).
  split; [exact H|].
  exact (print_is_not_folded unparse_call eval_text (init ∅) n "" "x)" H).
Defined.

Lemma add_constant_shadows_witness :
  let st' := {| scopes_visible := scopes_visible inside_module;
                scopes_constants := [ <[ "x" := PyInt 5 ]> ∅; ∅ ];
                constants := constants inside_module |} in
  add_constant "x" (PyInt 5) inside_module = (Ok tt, st') /\
  constant_vars st' !! "x" = Some (PyInt 5).
Proof.
  intros st'.
  assert (H : add_constant "x" (PyInt 5) inside_module = (Ok tt, st')) by reflexivity.
  split; [exact H|].
  exact (proj1 (add_constant_shadows "x" (PyInt 5) inside_module st' H)).
Defined.

(** [a, b = 2 + 3, 4]: the sum is left as it is. *)
Lemma visit_Assign_other_targets_witness :
  let targets :=
    [ Tuple (at_line 1) [Name (at_line 1) "a" Store; Name (at_line 1) "b" Store] Store ] in
  let value :=
    Tuple (at_line 1)
      [ BinOp (at_line 1) (Constant (at_line 1) (PyInt 2)) Add
          (Constant (at_line 1) (PyInt 3));
        Constant (at_line 1) (PyInt 4) ] Load in
  (forall tloc id ctx, targets <> [Name tloc id ctx]) /\
  visit_stmt unparse_node eval_text exec_text (Assign (at_line 1) targets value)
    inside_module
  = (Ok (Some (Assign (at_line 1) targets value)), inside_module).
Proof.
  intros targets value.
  assert (H : forall tloc id ctx, targets <> [Name tloc id ctx])
    by (intros tloc id ctx; discriminate).
  split; [exact H|].
  exact (visit_Assign_other_targets unparse_node eval_text exec_text
           inside_module (at_line 1) targets value H).
Defined.

(** [y: int] inside the module whose only written name is [x]. *)
Lemma visit_AnnAssign_without_value_witness :
  let n := AnnAssign (at_line 1) (Name (at_line 1) "y" Store)
             (Name (at_line 1) "int" Load) None in
  ("y" ∉ constants inside_module) /\
  visit_stmt unparse_node eval_text exec_text n inside_module
  = (Raise (CompilerError
              (PyError AttributeError "'NoneType' object has no attribute '_fields'")
              NodeNone step), inside_module).
Proof.
  intros n.
  assert (H : "y" ∉ constants inside_module)
    by (apply (bool_decide_unpack _); vm_compute; reflexivity).
  split; [exact H|].
  exact (proj2 (visit_AnnAssign_without_value unparse_node eval_text exec_text
                  inside_module (at_line 1) (at_line 1) "y" Store
                  (Name (at_line 1) "int" Load)) H).
Defined.





(** The pass on the module [x: int = 1 // 0]: what it raises is wrapped
    once. *)
Lemma visit_Module_wraps_once_witness :
  exists e st',
    visit_Module unparse_node eval_text exec_text
      (Module [failing_annotated_assignment]) (init ∅) = (Raise e, st') /\
    wrapped_once e.
Proof.
  assert (Hraise : exists e,
            fst (visit_Module unparse_node eval_text exec_text
                   (Module [failing_annotated_assignment]) (init ∅)) = Raise e)
    by (vm_compute; eexists; reflexivity).
  destruct Hraise as [e Hraise].
  destruct (visit_Module unparse_node eval_text exec_text
              (Module [failing_annotated_assignment]) (init ∅))
    as [r0 st'] eqn:Hrun.
  simpl in Hraise. subst r0. exists e, st'. split; [reflexivity|].
  exact (visit_Module_wraps_once unparse_node eval_text exec_text _ _ _ _ Hrun).
Defined.

(** [x = 1; x = 2] followed by [y = 3]. *)
Lemma written_twice_is_not_constant_witness :
  let x_is z := Assign (at_line z) [Name (at_line z) "x" Store]
                  (Constant (at_line z) (PyInt z)) in
  let y_is_3 := Assign (at_line 3) [Name (at_line 3) "y" Store]
                  (Constant (at_line 3) (PyInt 3)) in
  (2 <= written (DefinedTimesVisitor_vars (Module [x_is 1%Z; x_is 2%Z])) "x")%nat /\
  "x" ∉ single_assignment_set
          (DefinedTimesVisitor_vars (Module ([x_is 1; x_is 2] ++ [y_is_3]))).
Proof.
  intros x_is y_is_3.
  assert (H : (2 <= written (DefinedTimesVisitor_vars (Module [x_is 1%Z; x_is 2%Z])) "x")%nat)
    by (vm_compute; apply le_n).
  split; [exact H|].
  exact (written_twice_is_not_constant [x_is 1; x_is 2] [y_is_3] "x" H).
Defined.

(** [def len(xs): pass] after [x = 1]: [len] is collected. *)
Lemma ShallowNameDefCollector_collects_definitions_witness :
  let def_len :=
    FunctionDef (at_line 2) "len"
      {| args_ := [ {| arg_name := "xs"; annotation := None |} ]; defaults := [] |}
      [Pass (at_line 3)] None in
  let body :=
    [ Assign (at_line 1) [Name (at_line 1) "x" Store] (Constant (at_line 1) (PyInt 1));
      def_len ] in
  (In def_len body /\ defines def_len "len") /\
  "len" ∈ ShallowNameDefCollector_vars (Module body).
Proof.
  intros def_len body.
  assert (Hin : In def_len body) by (right; left; reflexivity).
  assert (Hdef : defines def_len "len") by reflexivity.
  split; [auto|].
  exact (ShallowNameDefCollector_collects_definitions body def_len "len" Hin Hdef).
Defined.



End ConstFolding.
